(** * AutoPM-AI frontend: a shallow embedding of the React components

    The development follows the four source components

    - [FileUpload]            (the File Collector),
    - [RecommendationInput]   (the Query Input),
    - [RecommendationResults] (the Recommendation Request Orchestrator),
    - [App]                   (the page that wires them together),

    each in a module of its name.  JavaScript strings are sequences of
    UTF-16 code units, JSON bodies are an inductive type, React hook
    state is a record threaded through a small state-and-exception monad,
    and asynchronous completion of a [fetch] is an explicit event of a
    step function. *)

From Stdlib Require Import String Ascii Bool ZArith NArith Lia List Sorted.
From Stdlib Require Import Permutation.
From Stdlib Require DecimalString.
Import ListNotations.

Set Implicit Arguments.
Set Warnings "-register-all".

(** ** JavaScript values *)

Module JS.

(** A JavaScript string: its UTF-16 code units. *)
Definition code_unit := N.
Definition jsstring := list code_unit.

(** A source literal made of ASCII characters. *)
Definition lit (s : string) : jsstring :=
  map N_of_ascii (list_ascii_of_string s).

Definition jsstring_eqb (a b : jsstring) : bool :=
  if list_eq_dec N.eq_dec a b then true else false.

(** The value [JSON.parse] (hence [res.json()]) produces.  A number is kept
    as the string [ToString] gives for it, which is ["0"] exactly for the
    two zeros; an object is the list of its members in text order, a later
    member of the same name replacing an earlier one. *)
Inductive JSON : Type :=
| JNull
| JBool (b : bool)
| JNum (repr : jsstring)
| JStr (s : jsstring)
| JArr (items : list JSON)
| JObj (members : list (jsstring * JSON)).

(** What an expression can evaluate to here: [undefined] or a JSON value. *)
Inductive value : Type :=
| Undefined
| Val (j : JSON).

(** [ToBoolean]. *)
Definition truthy_json (j : JSON) : bool :=
  match j with
  | JNull => false
  | JBool b => b
  | JNum r => negb (jsstring_eqb r (lit "0"))
  | JStr s => match s with [] => false | _ :: _ => true end
  | JArr _ => true
  | JObj _ => true
  end.

Definition truthy (v : value) : bool :=
  match v with
  | Undefined => false
  | Val j => truthy_json j
  end.

(** Own member [k] of a parsed object. *)
Fixpoint lookup (k : jsstring) (members : list (jsstring * JSON)) : option JSON :=
  match members with
  | [] => None
  | (k', v) :: rest =>
      match lookup k rest with
      | Some w => Some w
      | None => if jsstring_eqb k' k then Some v else None
      end
  end.

(** What JavaScript code throws: an [Error] instance (also [TypeError],
    [SyntaxError]) with its message, or some other value. *)
Inductive Exn : Type :=
| ErrorObj (message : jsstring)
| Other (v : value).

(** Messages of the engine's own [TypeError]s (V8 wording). *)
Definition null_property_message (k : jsstring) : jsstring :=
  lit "Cannot read properties of null (reading '" ++ k ++ lit "')".
Definition undefined_property_message (k : jsstring) : jsstring :=
  lit "Cannot read properties of undefined (reading '" ++ k ++ lit "')".
Definition to_primitive_message : jsstring :=
  lit "Cannot convert object to primitive value".

(** The member access [v.k] for a name [k] that no prototype defines
    ([detail], [recommendations]): a [TypeError] on [null] and [undefined],
    the own member on an object, [undefined] on everything else. *)
Definition get (v : value) (k : jsstring) : Exn + value :=
  match v with
  | Undefined => inl (ErrorObj (undefined_property_message k))
  | Val JNull => inl (ErrorObj (null_property_message k))
  | Val (JObj members) =>
      match lookup k members with
      | Some j => inr (Val j)
      | None => inr Undefined
      end
  | Val _ => inr Undefined
  end.

Fixpoint join (sep : jsstring) (parts : list jsstring) : jsstring :=
  match parts with
  | [] => []
  | [p] => p
  | p :: rest => p ++ sep ++ join sep rest
  end.

(** [ToString] of a parsed value; [None] is the [TypeError] of an object
    whose own [toString] member shadows [Object.prototype.toString] with
    something that cannot be called.  An array joins its elements with a
    comma, [null] elements giving the empty string. *)
Fixpoint to_string_json (j : JSON) : option jsstring :=
  match j with
  | JNull => Some (lit "null")
  | JBool true => Some (lit "true")
  | JBool false => Some (lit "false")
  | JNum r => Some r
  | JStr s => Some s
  | JArr items =>
      let fix elems (l : list JSON) : option (list jsstring) :=
        match l with
        | [] => Some []
        | x :: rest =>
            match (match x with JNull => Some [] | _ => to_string_json x end),
                  elems rest with
            | Some s, Some ss => Some (s :: ss)
            | _, _ => None
            end
        end in
      match elems items with
      | Some parts => Some (join (lit ",") parts)
      | None => None
      end
  | JObj members =>
      match lookup (lit "toString") members with
      | Some _ => None
      | None => Some (lit "[object Object]")
      end
  end.

Definition to_string (v : value) : Exn + jsstring :=
  match v with
  | Undefined => inr (lit "undefined")
  | Val j =>
      match to_string_json j with
      | Some s => inr s
      | None => inl (ErrorObj to_primitive_message)
      end
  end.

(** [a || b]. *)
Definition or_else (a b : value) : value := if truthy a then a else b.

(** [String.prototype.trim] removes the code units in WhiteSpace and
    LineTerminator from both ends. *)
Definition is_white_space (c : code_unit) : bool :=
  (N.eqb c 9 || N.eqb c 10 || N.eqb c 11 || N.eqb c 12 || N.eqb c 13
   || N.eqb c 32 || N.eqb c 160 || N.eqb c 5760
   || (N.leb 8192 c && N.leb c 8202)
   || N.eqb c 8232 || N.eqb c 8233 || N.eqb c 8239 || N.eqb c 8287
   || N.eqb c 12288 || N.eqb c 65279)%bool.

Fixpoint trim_start (s : jsstring) : jsstring :=
  match s with
  | [] => []
  | c :: rest => if is_white_space c then trim_start rest else s
  end.

Definition trim_end (s : jsstring) : jsstring := rev (trim_start (rev s)).

Definition trim (s : jsstring) : jsstring := trim_end (trim_start s).

Definition truthy_string (s : jsstring) : bool :=
  match s with [] => false | _ :: _ => true end.

(** A string with no code unit other than white space. *)
Definition blank (s : jsstring) : Prop :=
  Forall (fun c => is_white_space c = true) s.

End JS.

Import JS.

(** A browser [File]: name, size, MIME type and bytes. *)
Record File : Type := mkFile {
  name : jsstring;
  size : N;
  mime : jsstring;
  content : list N
}.

(** Three small files for the examples. *)
Definition a_txt : File :=
  {| name := lit "a.txt"; size := 1; mime := lit "text/plain"; content := [97%N] |}.
Definition b_txt : File :=
  {| name := lit "b.txt"; size := 1; mime := lit "text/plain"; content := [98%N] |}.
Definition c_txt : File :=
  {| name := lit "c.txt"; size := 1; mime := lit "text/plain"; content := [99%N] |}.

(** ** FileUpload: the File Collector *)

Module FileUpload.

Section Handlers.
Context {A : Type}.

(** [Array.prototype.filter] with a callback that looks at the element
    and its index. *)
Fixpoint filter_from (p : A -> nat -> bool) (start : nat) (l : list A) : list A :=
  match l with
  | [] => []
  | x :: rest =>
      if p x start then x :: filter_from p (S start) rest
      else filter_from p (S start) rest
  end.

Definition array_filter (p : A -> nat -> bool) (l : list A) : list A :=
  filter_from p 0 l.

(** Each handler returns the array it passes to [onFilesChange]. *)
Definition handleDrop (uploadedFiles files : list A) : list A :=
  uploadedFiles ++ files.

(** [e.target.files] may be [null], and then nothing is reported. *)
Definition handleFileSelect (uploadedFiles : list A)
    (target_files : option (list A)) : option (list A) :=
  match target_files with
  | Some files => Some (uploadedFiles ++ files)
  | None => None
  end.

(** The callback [(_, i) => i !== index].  [index] is a JavaScript
    number; an integer here, any other number behaving as an index that
    no element has. *)
Definition keeps (index : Z) : A -> nat -> bool :=
  fun _ i => negb (Z.eqb (Z.of_nat i) index).

Definition handleRemoveFile (uploadedFiles : list A) (index : Z) : list A :=
  array_filter (keeps index) uploadedFiles.

(** A history of collector operations, run from the empty list the page
    starts with. *)
Inductive Op : Type :=
| Add (files : list A)
| Remove (index : Z).

Definition apply_op (l : list A) (op : Op) : list A :=
  match op with
  | Add files => handleDrop l files
  | Remove index => handleRemoveFile l index
  end.

Definition run (ops : list Op) : list A := fold_left apply_op ops [].

(** Every file ever added, in the order of insertion. *)
Definition inserted (ops : list Op) : list A :=
  flat_map (fun op => match op with Add files => files | Remove _ => [] end) ops.
End Handlers.

Arguments Op A : clear implicits.

(** The same history replayed on insertion ranks instead of files: the
    k-th file ever added is the number k. *)
Definition rank_op {A} (st : nat * list nat) (op : Op A) : nat * list nat :=
  match op with
  | Add files =>
      (fst st + length files, handleDrop (snd st) (seq (fst st) (length files)))%nat
  | Remove index => (fst st, handleRemoveFile (snd st) index)
  end.

Definition ranks {A} (ops : list (Op A)) : list nat :=
  snd (fold_left rank_op ops (0%nat, [])).

(** What a history keeps true: the files held are the files ever added at
    the ranks held, and the ranks increase. *)
Definition tracks {A} (all l : list A) (st : nat * list nat) : Prop :=
  fst st = length all /\
  map Some l = map (nth_error all) (snd st) /\
  StronglySorted lt (snd st) /\
  Forall (fun k => k < fst st)%nat (snd st).

(** The chips of the JSX, [uploadedFiles.map((file, index) => ...)]: each
    shows [file.name], and its button calls [handleRemoveFile(index)]. *)
Record Chip : Type := mkChip {
  chip_name : jsstring;
  chip_index : Z
}.

Fixpoint chips_from (start : nat) (uploadedFiles : list File) : list Chip :=
  match uploadedFiles with
  | [] => []
  | file :: rest =>
      {| chip_name := name file; chip_index := Z.of_nat start |}
        :: chips_from (S start) rest
  end.

Definition chips (uploadedFiles : list File) : list Chip :=
  chips_from 0 uploadedFiles.

(** [ToString] of a number that is a non-negative integer: its decimal
    digits. *)
Definition decimal (n : N) : jsstring :=
  lit (DecimalString.NilZero.string_of_uint (N.to_uint n)).

(** [(num / den).toFixed(1)] for a quotient the number format holds exactly
    (an integer below 2^53 over a power of two): the integer [n] nearest to
    ten times the quotient, the larger one on a tie, printed with its last
    digit after the point. *)
Definition tenths (num den : N) : N := (10 * num + den / 2) / den.

Definition toFixed1 (num den : N) : jsstring :=
  decimal (tenths num den / 10) ++ lit "." ++ decimal (tenths num den mod 10).

(** [formatFileSize] on a size that is an integer number of bytes. *)
Definition formatFileSize (bytes : N) : jsstring :=
  if (bytes <? 1024)%N then decimal bytes ++ lit " B"
  else if (bytes <? 1024 * 1024)%N then toFixed1 bytes 1024 ++ lit " KB"
  else toFixed1 bytes (1024 * 1024) ++ lit " MB".

End FileUpload.

(** ** RecommendationInput: the Query Input *)

Module RecommendationInput.

(** [handleSubmit] with the textarea holding [query]: the argument
    [onSubmit] is called with, if it is called. *)
Definition handleSubmit (query : jsstring) : option jsstring :=
  if truthy_string (trim query) then Some query else None.

(** The Generate button is disabled on [!query.trim() || isProcessing]. *)
Definition button_disabled (query : jsstring) (isProcessing : bool) : bool :=
  (negb (truthy_string (trim query)) || isProcessing)%bool.

End RecommendationInput.

(** ** RecommendationResults: the Recommendation Request Orchestrator *)

Module RecommendationResults.

(** The three [useState] cells of the component. *)
Record Hooks : Type := mkHooks {
  recommendations : value;
  loading : bool;
  error : option jsstring
}.

Definition initial_hooks : Hooks :=
  {| recommendations := Val JNull; loading := true; error := None |}.

(** *** Statements that read and write the cells and may throw *)

Definition M (A : Type) : Type := Hooks -> (Exn + A) * Hooks.

Definition ret {A} (a : A) : M A := fun h => (inr a, h).

Definition bind {A B} (m : M A) (k : A -> M B) : M B :=
  fun h =>
    match m h with
    | (inl e, h') => (inl e, h')
    | (inr a, h') => k a h'
    end.

Definition throw {A} (e : Exn) : M A := fun h => (inl e, h).

Definition lift {A} (r : Exn + A) : M A :=
  match r with
  | inl e => throw e
  | inr a => ret a
  end.

Definition try_catch {A} (block : M A) (handler : Exn -> M A) : M A :=
  fun h =>
    match block h with
    | (inl e, h') => handler e h'
    | (inr a, h') => (inr a, h')
    end.

Definition try_finally {A} (block : M A) (finalizer : M unit) : M A :=
  fun h =>
    match block h with
    | (r, h') =>
        match finalizer h' with
        | (inl e, h'') => (inl e, h'')
        | (inr _, h'') => (r, h'')
        end
    end.

Declare Scope js_scope.
Delimit Scope js_scope with js.
Notation "x <- m ;; k" := (bind m (fun x => k))
  (at level 61, m at next level, right associativity) : js_scope.
Notation "m ;; k" := (bind m (fun _ => k))
  (at level 61, right associativity) : js_scope.
Local Open Scope js_scope.

Definition setRecommendations (v : value) : M unit :=
  fun h => (inr tt, {| recommendations := v; loading := loading h; error := error h |}).

Definition setLoading (b : bool) : M unit :=
  fun h => (inr tt, {| recommendations := recommendations h; loading := b; error := error h |}).

Definition setError (e : option jsstring) : M unit :=
  fun h => (inr tt, {| recommendations := recommendations h; loading := loading h; error := e |}).

(** *** The request *)

Inductive FormValue : Type :=
| Text (s : jsstring)
| Blob (f : File).

Definition FormData : Type := list (jsstring * FormValue).

Definition append (fd : FormData) (field : jsstring) (v : FormValue) : FormData :=
  fd ++ [(field, v)].

Record Request : Type := mkRequest {
  url : jsstring;
  method : jsstring;
  body : FormData
}.

(** *** The response *)

(** What [res.json()] does with the body: reject with a [SyntaxError] of
    some message, or give the parsed value. *)
Inductive Body : Type :=
| NotJSON (syntax_error : jsstring)
| IsJSON (j : JSON).

Record Response : Type := mkResponse {
  status : N;
  statusText : jsstring;
  payload : Body
}.

(** [res.ok]: the status is in the range 200-299. *)
Definition ok (res : Response) : bool :=
  (N.leb 200 (status res) && N.leb (status res) 299)%bool.

Definition json (res : Response) : Exn + JSON :=
  match payload res with
  | NotJSON m => inl (ErrorObj m)
  | IsJSON j => inr j
  end.

(** How the promise of [fetch] settles: rejected with a [TypeError] (the
    request could not be made) or resolved with a response. *)
Inductive FetchOutcome : Type :=
| Rejected (message : jsstring)
| Resolved (res : Response).

Section Component.

(** [import.meta.env.VITE_API_URL], possibly not set. *)
Variable VITE_API_URL : option jsstring.

Definition API_URL : jsstring :=
  match VITE_API_URL with
  | Some (c :: s) => c :: s
  | _ => []
  end.

Definition endpoint : jsstring :=
  (if truthy_string API_URL then API_URL else []) ++ lit "/api/recommendations".

(** [fetchRecommendations] up to the call of [fetch]: the request it
    makes, if it makes one. *)
Definition fetchRecommendations_start (query : jsstring) (files : list File)
    : M (option Request) :=
  match files with
  | [] => ret None
  | _ :: _ =>
      setLoading true ;;
      setError None ;;
      let formData := append [] (lit "query") (Text query) in
      let formData :=
        fold_left (fun fd file => append fd (lit "files") (Blob file)) files formData in
      ret (Some {| url := endpoint; method := lit "POST"; body := formData |})
  end.

Definition fallback_message : jsstring := lit "Failed to get recommendations".

(** The rest of the [try] block, from the moment [fetch] has settled. *)
Definition try_block (outcome : FetchOutcome) : M unit :=
  res <- match outcome with
         | Rejected m => throw (ErrorObj m)
         | Resolved res => ret res
         end ;;
  (if negb (ok res) then
     err <- ret (match json res with
                 | inr j => Val j
                 | inl _ => Val (JObj [(lit "detail", JStr (statusText res))])
                 end) ;;
     detail <- lift (get err (lit "detail")) ;;
     message <- lift (to_string (or_else detail (Val (JStr fallback_message)))) ;;
     throw (ErrorObj message)
   else ret tt) ;;
  data <- lift (json res) ;;
  r <- lift (get (Val data) (lit "recommendations")) ;;
  setRecommendations r.

Definition catch_block (e : Exn) : M unit :=
  setError (Some (match e with
                  | ErrorObj message => message
                  | Other _ => lit "An error occurred"
                  end)).

(** [fetchRecommendations] from the moment [fetch] has settled. *)
Definition fetchRecommendations_resume (outcome : FetchOutcome) : M unit :=
  try_finally (try_catch (try_block outcome) catch_block) (setLoading false).

(** *** What the component renders *)

Inductive Display : Type :=
| Spinner
| ErrorBox (message : jsstring)
| Nothing
| Markdown (children : value) (analyzed : nat).

Definition render (files : list File) (h : Hooks) : Display :=
  if loading h then Spinner
  else
    match error h with
    | Some (c :: s) => ErrorBox (c :: s)
    | _ =>
        if negb (truthy (recommendations h)) then Nothing
        else Markdown (recommendations h) (length files)
    end.

(** *** A mounted instance and the events that reach it *)

Record Instance : Type := mkInstance {
  query : jsstring;
  files : list File;
  hooks : Hooks;
  inflight : list Request;
  sent : list Request;
  unhandled : list Exn
}.

Definition display (o : Instance) : Display := render (files o) (hooks o).

(** The effect: it runs after the first render and after each render in
    which [query] or [files] differs from the render before. *)
Definition run_effect (o : Instance) : Instance :=
  match fetchRecommendations_start (query o) (files o) (hooks o) with
  | (r, h) =>
      let issued := match r with inr (Some q) => [q] | _ => [] end in
      {| query := query o; files := files o; hooks := h;
         inflight := inflight o ++ issued;
         sent := sent o ++ issued;
         unhandled := unhandled o ++ match r with inl e => [e] | inr _ => [] end |}
  end.

Definition mount (q : jsstring) (fs : list File) : Instance :=
  run_effect {| query := q; files := fs; hooks := initial_hooks;
                inflight := []; sent := []; unhandled := [] |}.

(** A render with new props whose dependencies changed. *)
Definition submit (q : jsstring) (fs : list File) (o : Instance) : Instance :=
  run_effect {| query := q; files := fs; hooks := hooks o;
                inflight := inflight o; sent := sent o; unhandled := unhandled o |}.

Fixpoint remove_nth {A} (n : nat) (l : list A) : list A :=
  match l, n with
  | [], _ => []
  | _ :: rest, O => rest
  | x :: rest, S m => x :: remove_nth m rest
  end.

(** The [n]-th request in flight settles; [None] if there is none. *)
Definition settle (n : nat) (outcome : FetchOutcome) (o : Instance) : option Instance :=
  match nth_error (inflight o) n with
  | None => None
  | Some _ =>
      match fetchRecommendations_resume outcome (hooks o) with
      | (r, h) =>
          Some {| query := query o; files := files o; hooks := h;
                  inflight := remove_nth n (inflight o);
                  sent := sent o;
                  unhandled := unhandled o ++ match r with inl e => [e] | inr _ => [] end |}
      end
  end.

Inductive Event : Type :=
| Submit (q : jsstring) (fs : list File)
| Settle (n : nat) (outcome : FetchOutcome).

Definition step (o : Instance) (e : Event) : option Instance :=
  match e with
  | Submit q fs => Some (submit q fs o)
  | Settle n outcome => settle n outcome o
  end.

Fixpoint steps (o : Instance) (es : list Event) : option Instance :=
  match es with
  | [] => Some o
  | e :: rest =>
      match step o e with
      | Some o' => steps o' rest
      | None => None
      end
  end.

(** The instances a mounted component can be in. *)
Definition reachable (o : Instance) : Prop :=
  exists q fs es, steps (mount q fs) es = Some o.

End Component.

(** What a settled [fetch] comes to, read off a run of
    [fetchRecommendations_resume] from the first render's cells: the
    message given to [setError], or the value given to
    [setRecommendations]. *)
Definition verdict (outcome : FetchOutcome) : jsstring + value :=
  let h := snd (fetchRecommendations_resume outcome initial_hooks) in
  match error h with
  | Some m => inl m
  | None => inr (recommendations h)
  end.

Definition apply_verdict (r : jsstring + value) (h : Hooks) : Hooks :=
  match r with
  | inl m => {| recommendations := recommendations h; loading := false; error := Some m |}
  | inr v => {| recommendations := v; loading := false; error := error h |}
  end.

(** The cells right after the synchronous part of a submission that has
    files. *)
Definition pending (h : Hooks) : Hooks :=
  {| recommendations := recommendations h; loading := true; error := None |}.

(** While the spinner is up no error is stored. *)
Definition spinner_clean (h : Hooks) : Prop :=
  loading h = true -> error h = None.

End RecommendationResults.

(** Responses of the service used in the examples. *)
Module Samples.

Import RecommendationResults.

Definition rate_limited : Response :=
  {| status := 429; statusText := lit "Too Many Requests";
     payload := IsJSON (JObj [(lit "detail", JStr (lit "rate limited"))]) |}.

Definition empty_detail : Response :=
  {| status := 429; statusText := lit "Too Many Requests";
     payload := IsJSON (JObj [(lit "detail", JStr [])]) |}.

Definition empty_array_detail : Response :=
  {| status := 400; statusText := lit "Bad Request";
     payload := IsJSON (JObj [(lit "detail", JArr [])]) |}.

Definition bad_gateway : Response :=
  {| status := 502; statusText := lit "Bad Gateway";
     payload := NotJSON (lit "Unexpected token '<'") |}.

Definition ok_html : Response :=
  {| status := 200; statusText := lit "OK";
     payload := NotJSON (lit "Unexpected token '<'") |}.

Definition ok_empty_object : Response :=
  {| status := 200; statusText := lit "OK"; payload := IsJSON (JObj []) |}.

Definition ok_with (markdown : jsstring) : Response :=
  {| status := 200; statusText := lit "OK";
     payload := IsJSON (JObj [(lit "recommendations", JStr markdown)]) |}.

End Samples.

(** ** App: the page *)

Module App.

Module RR := RecommendationResults.

Record State : Type := mkState {
  uploadedFiles : list File;
  query : jsstring;
  showResults : bool;
  isInteracting : bool
}.

Definition initial : State :=
  {| uploadedFiles := []; query := []; showResults := false; isInteracting := false |}.

Definition handleQuerySubmit (submittedQuery : jsstring) (s : State) : State :=
  {| uploadedFiles := uploadedFiles s;
     query := submittedQuery;
     showResults := true;
     isInteracting := true |}.

Definition setUploadedFiles (fs : list File) (s : State) : State :=
  {| uploadedFiles := fs;
     query := query s;
     showResults := showResults s;
     isInteracting := isInteracting s |}.

(** The conditional blocks of the JSX, in source order. *)
Definition shows_hero (s : State) : bool := negb (isInteracting s).

Definition shows_results_in_card (s : State) : bool :=
  (showResults s && (0 <? length (uploadedFiles s))%nat && negb (isInteracting s))%bool.

Definition shows_upload_prompt (s : State) : bool :=
  (showResults s && (length (uploadedFiles s) =? 0)%nat && negb (isInteracting s))%bool.

Definition shows_results_above_input (s : State) : bool :=
  (isInteracting s && showResults s && (0 <? length (uploadedFiles s))%nat)%bool.

(** The two places of the tree that hold a [RecommendationResults]. *)
Inductive Slot : Type := InCard | AboveInput.

Definition slot_eqb (a b : Slot) : bool :=
  match a, b with
  | InCard, InCard | AboveInput, AboveInput => true
  | _, _ => false
  end.

Definition slot_of (s : State) : option Slot :=
  if shows_results_in_card s then Some InCard
  else if shows_results_above_input s then Some AboveInput
  else None.

Section Page.

Variable VITE_API_URL : option jsstring.

(** The page with the instance of [RecommendationResults] it has mounted,
    if any, and the requests made by instances since unmounted. *)
Record World : Type := mkWorld {
  app : State;
  results : option (Slot * RR.Instance);
  past : list RR.Request
}.

Definition start : World :=
  {| app := initial; results := None; past := [] |}.

(** Every request made so far, oldest first. *)
Definition network (w : World) : list RR.Request :=
  past w ++ match results w with
            | Some (_, o) => RR.sent o
            | None => []
            end.

(** React commits the state [s']: the instance is unmounted, mounted or
    kept according to the slot that renders it, and a kept instance runs
    its effect again when [query] changed or [files] is a new array. *)
Definition commit (w : World) (s' : State) (new_array : bool) : World :=
  let retired := match results w with
                 | Some (_, o) => RR.sent o
                 | None => []
                 end in
  let fresh := RR.mount VITE_API_URL (query s') (uploadedFiles s') in
  match slot_of s', results w with
  | None, _ =>
      {| app := s'; results := None; past := past w ++ retired |}
  | Some sl', None =>
      {| app := s'; results := Some (sl', fresh); past := past w |}
  | Some sl', Some (sl, o) =>
      if slot_eqb sl sl' then
        let changed := (negb (jsstring_eqb (RR.query o) (query s')) || new_array)%bool in
        {| app := s';
           results := Some (sl, if changed
                                then RR.submit VITE_API_URL (query s') (uploadedFiles s') o
                                else o);
           past := past w |}
      else
        {| app := s'; results := Some (sl', fresh); past := past w ++ retired |}
  end.

Inductive Event : Type :=
| FormSubmitted (text : jsstring)
| FilesSelected (target_files : option (list File))
| RemoveClicked (index : Z)
| FetchSettled (n : nat) (outcome : RR.FetchOutcome).

Definition step (w : World) (e : Event) : World :=
  match e with
  | FormSubmitted text =>
      match RecommendationInput.handleSubmit text with
      | Some q => commit w (handleQuerySubmit q (app w)) false
      | None => w
      end
  | FilesSelected target_files =>
      match FileUpload.handleFileSelect (uploadedFiles (app w)) target_files with
      | Some fs => commit w (setUploadedFiles fs (app w)) true
      | None => w
      end
  | RemoveClicked index =>
      commit w (setUploadedFiles
                  (FileUpload.handleRemoveFile (uploadedFiles (app w)) index) (app w)) true
  | FetchSettled n outcome =>
      match results w with
      | Some (sl, o) =>
          match RR.settle n outcome o with
          | Some o' => {| app := app w; results := Some (sl, o'); past := past w |}
          | None => w
          end
      | None => w
      end
  end.

Definition run (es : list Event) : World := fold_left step es start.

(** The two flags are equal, and an instance is mounted only where a
    slot renders it. *)
Definition linked (w : World) : Prop :=
  showResults (app w) = isInteracting (app w) /\
  (slot_of (app w) = None -> results w = None).

(** The request [fetchRecommendations] builds from a query and files. *)
Definition request_of (q : jsstring) (fs : list File) : RR.Request :=
  {| RR.url := RR.endpoint VITE_API_URL;
     RR.method := lit "POST";
     RR.body := (lit "query", RR.Text q)
                  :: map (fun x => (lit "files", RR.Blob x)) fs |}.

(** A request built from a query that is not blank and a list with a
    first file. *)
Definition well_formed (r : RR.Request) : Prop :=
  exists q f fs,
    Exists (fun c => is_white_space c = false) q /\
    r = request_of q (f :: fs).

(** What every reachable page satisfies. *)
Definition coherent (w : World) : Prop :=
  showResults (app w) = isInteracting (app w) /\
  (showResults (app w) = false -> query (app w) = [] /\ network w = []) /\
  (showResults (app w) = true ->
     Exists (fun c => is_white_space c = false) (query (app w))) /\
  match results w with
  | None => slot_of (app w) = None
  | Some (sl, o) =>
      sl = AboveInput /\ slot_of (app w) = Some AboveInput /\
      RR.query o = query (app w) /\
      RR.files o = uploadedFiles (app w) /\
      RR.unhandled o = []
  end /\
  Forall well_formed (network w).

Definition reachable (w : World) : Prop := exists es, run es = w.

End Page.

End App.

(** * Facts *)

(** ** Strings *)

Lemma jsstring_eqb_eq a b : jsstring_eqb a b = true <-> a = b.
Proof.
  unfold jsstring_eqb. destruct (list_eq_dec N.eq_dec a b); split;
    intros; congruence.
Qed.

Lemma jsstring_eqb_refl a : jsstring_eqb a a = true.
Proof. now apply jsstring_eqb_eq. Qed.

Lemma jsstring_eqb_neq a b : a <> b -> jsstring_eqb a b = false.
Proof.
  intros H. unfold jsstring_eqb.
  now destruct (list_eq_dec N.eq_dec a b).
Qed.

(** ** The File Collector *)

Section FileCollector.

Import FileUpload.

Context {A : Type}.

Lemma handleRemoveFile_unfold (l : list A) index :
  handleRemoveFile l index = filter_from (keeps index) 0 l.
Proof. reflexivity. Qed.

Lemma filter_from_miss index : forall (l : list A) start,
  (index < Z.of_nat start \/ Z.of_nat start + Z.of_nat (length l) <= index)%Z ->
  filter_from (keeps index) start l = l.
Proof.
  induction l as [|x l IH]; intros start H; simpl; [reflexivity|].
  unfold keeps at 1.
  destruct (Z.eqb_spec (Z.of_nat start) index) as [E|E]; simpl in *.
  - lia.
  - f_equal. apply IH. lia.
Qed.

Lemma filter_from_hit : forall (l : list A) start i,
  (i < length l)%nat ->
  filter_from (keeps (Z.of_nat (start + i))) start l = firstn i l ++ skipn (S i) l.
Proof.
  induction l as [|x l IH]; intros start i H; simpl in H; [lia|].
  simpl filter_from. unfold keeps at 1.
  destruct i as [|i].
  - rewrite Nat.add_0_r, Z.eqb_refl. simpl.
    apply filter_from_miss. lia.
  - destruct (Z.eqb_spec (Z.of_nat start) (Z.of_nat (start + S i))) as [E|E];
      [lia|]. simpl. f_equal.
    replace (start + S i)%nat with (S start + i)%nat by lia.
    apply IH. lia.
Qed.

Lemma handleRemoveFile_hit (l : list A) i :
  (i < length l)%nat ->
  handleRemoveFile l (Z.of_nat i) = firstn i l ++ skipn (S i) l.
Proof. intros Hi. exact (filter_from_hit l 0 Hi). Qed.

Lemma handleRemoveFile_miss (l : list A) index :
  (index < 0 \/ Z.of_nat (length l) <= index)%Z ->
  handleRemoveFile l index = l.
Proof. intros H. apply filter_from_miss. simpl. lia. Qed.

Lemma nth_error_remove (l : list A) i j :
  (i < length l)%nat ->
  nth_error (firstn i l ++ skipn (S i) l) j =
    if (j <? i)%nat then nth_error l j else nth_error l (S j).
Proof.
  intros Hi.
  assert (Hlen : length (firstn i l) = i) by (rewrite length_firstn; lia).
  destruct (Nat.ltb_spec j i) as [Hj|Hj].
  - rewrite nth_error_app1 by lia. rewrite nth_error_firstn.
    destruct (Nat.ltb_spec j i); [reflexivity|lia].
  - rewrite nth_error_app2 by lia. rewrite Hlen, nth_error_skipn.
    f_equal. lia.
Qed.

End FileCollector.

Section Ranks.

Import FileUpload.

Context {A B : Type}.

(** Filtering on the index alone commutes with [map]. *)
Lemma filter_from_map (f : A -> B) index : forall (l : list A) start,
  filter_from (keeps index) start (map f l) =
  map f (filter_from (keeps index) start l).
Proof.
  induction l as [|x l IH]; intros start; simpl; [reflexivity|].
  change (@keeps B index (f x) start) with (@keeps A index x start).
  destruct (keeps index x start); simpl; now rewrite IH.
Qed.

End Ranks.

Lemma filter_from_Forall {A} (P : A -> Prop) p : forall (l : list A) start,
  Forall P l -> Forall P (FileUpload.filter_from p start l).
Proof.
  induction l as [|x l IH]; intros start H; simpl; [constructor|].
  inversion H; subst.
  destruct (p x start); [constructor|]; auto.
Qed.

Lemma filter_from_sorted p : forall (l : list nat) start,
  StronglySorted lt l -> StronglySorted lt (FileUpload.filter_from p start l).
Proof.
  induction l as [|x l IH]; intros start H; simpl; [constructor|].
  inversion H; subst.
  destruct (p x start); [constructor|]; auto.
  now apply filter_from_Forall.
Qed.

Lemma sorted_app_seq : forall (ks : list nat) n len,
  StronglySorted lt ks -> Forall (fun k => k < n)%nat ks ->
  StronglySorted lt (ks ++ seq n len).
Proof.
  induction ks as [|k ks IH]; intros n len Hs Hb; simpl.
  - clear Hs Hb. revert n.
    induction len as [|len IHl]; intros n; simpl; constructor.
    + apply IHl.
    + apply Forall_forall. intros y Hy. apply in_seq in Hy. lia.
  - inversion Hs; subst. inversion Hb; subst. constructor.
    + now apply IH.
    + apply Forall_app. split; [assumption|].
      apply Forall_forall. intros y Hy. apply in_seq in Hy. lia.
Qed.

Lemma nth_error_seq_app {A} (all fs : list A) :
  map (nth_error (all ++ fs)) (seq (length all) (length fs)) = map Some fs.
Proof.
  revert all. induction fs as [|f fs IH]; intros all; simpl; [reflexivity|].
  f_equal.
  - rewrite nth_error_app2 by lia. now rewrite Nat.sub_diag.
  - specialize (IH (all ++ [f])).
    rewrite <- app_assoc, length_app in IH. simpl in IH.
    rewrite Nat.add_1_r in IH. exact IH.
Qed.

Lemma tracks_step {A} (all l : list A) st (op : FileUpload.Op A) :
  FileUpload.tracks all l st ->
  FileUpload.tracks (all ++ FileUpload.inserted [op]) (FileUpload.apply_op l op)
         (FileUpload.rank_op st op).
Proof.
  destruct st as [n ks]. intros (Hn & Hm & Hs & Hb). simpl in *. subst n.
  destruct op as [fs|index]; simpl; unfold FileUpload.tracks; simpl.
  - rewrite app_nil_r. unfold FileUpload.handleDrop.
    repeat split.
    + now rewrite length_app.
    + rewrite !map_app, nth_error_seq_app, Hm. f_equal.
      apply map_ext_in. intros k Hk.
      rewrite Forall_forall in Hb. symmetry. apply nth_error_app1. now apply Hb.
    + now apply sorted_app_seq.
    + apply Forall_app. split.
      * eapply Forall_impl; [|exact Hb]. simpl. intros; lia.
      * apply Forall_forall. intros y Hy. apply in_seq in Hy. lia.
  - rewrite app_nil_r. rewrite !handleRemoveFile_unfold.
    repeat split.
    + rewrite <- (filter_from_map Some), Hm. apply filter_from_map.
    + now apply filter_from_sorted.
    + now apply filter_from_Forall.
Qed.

Lemma tracks_run {A} : forall (ops : list (FileUpload.Op A)) all l st,
  FileUpload.tracks all l st ->
  FileUpload.tracks (all ++ FileUpload.inserted ops)
         (fold_left FileUpload.apply_op ops l)
         (fold_left FileUpload.rank_op ops st).
Proof.
  induction ops as [|op ops IH]; intros all l st H; simpl.
  - now rewrite app_nil_r.
  - apply (tracks_step op) in H. simpl in H. rewrite app_nil_r in H.
    apply IH in H. now rewrite <- app_assoc in H.
Qed.

(** C6: [add] puts the new files after the old ones in their order and
    keeps duplicates, both through the picker ([handleFileSelect]) and
    through a drop ([handleDrop]); [remove] at an index in the list deletes
    that entry alone, later entries moving down by one; and after any
    history of operations the list is the files ever added, in insertion
    order, at the strictly increasing ranks that survived. *)
Theorem C6_file_collector_order (ops : list (FileUpload.Op File)) :
  (forall l fs : list File,
      FileUpload.handleFileSelect l (Some fs) = Some (FileUpload.handleDrop l fs) /\
      firstn (length l) (FileUpload.handleDrop l fs) = l /\
      skipn (length l) (FileUpload.handleDrop l fs) = fs) /\
  (forall (l : list File) i,
      (i < length l)%nat ->
      length (FileUpload.handleRemoveFile l (Z.of_nat i)) = (length l - 1)%nat /\
      forall j, nth_error (FileUpload.handleRemoveFile l (Z.of_nat i)) j =
                if (j <? i)%nat then nth_error l j else nth_error l (S j)) /\
  map Some (FileUpload.run ops) =
    map (nth_error (FileUpload.inserted ops)) (FileUpload.ranks ops) /\
  StronglySorted lt (FileUpload.ranks ops).
Proof.
  split; [|split].
  - intros l fs. unfold FileUpload.handleDrop. split; [reflexivity|].
    split.
    + rewrite firstn_app, Nat.sub_diag, firstn_all. simpl. apply app_nil_r.
    + rewrite skipn_app, Nat.sub_diag, skipn_all. reflexivity.
  - intros l i Hi.
    rewrite (handleRemoveFile_hit l Hi).
    split.
    + rewrite length_app, length_firstn, length_skipn. lia.
    + intros j. now apply nth_error_remove.
  - assert (H : FileUpload.tracks (@nil File) [] (0%nat, [])).
    { unfold FileUpload.tracks; simpl. repeat split; constructor. }
    apply (tracks_run ops) in H. simpl in H.
    destruct H as (_ & Hm & Hs & _). split; assumption.
Qed.

Lemma C6_file_collector_order_witness :
  FileUpload.handleRemoveFile [a_txt; b_txt; c_txt] 1 = [a_txt; c_txt] /\
  nth_error (FileUpload.handleRemoveFile [a_txt; b_txt; c_txt] (Z.of_nat 1)) 1 =
    Some c_txt /\
  FileUpload.ranks
    [FileUpload.Add [a_txt; b_txt]; FileUpload.Remove 0; FileUpload.Add [a_txt]]
    = [1; 2]%nat.
Proof.
  split; [reflexivity|]. split; [|reflexivity].
  destruct (C6_file_collector_order []) as (_ & Hrm & _).
  destruct (Hrm [a_txt; b_txt; c_txt] 1%nat) as (_ & Hnth); [simpl; lia|].
  rewrite (Hnth 1%nat). reflexivity.
Defined.

(** C9: [handleRemoveFile] is a total function of the list and the index;
    an index inside the list removes that one entry, an index outside it
    (negative, or the length or more) gives back the same entries. *)
Theorem C9_remove_total (l : list File) (index : Z) :
  ((0 <= index < Z.of_nat (length l))%Z ->
     FileUpload.handleRemoveFile l index =
       firstn (Z.to_nat index) l ++ skipn (S (Z.to_nat index)) l /\
     S (length (FileUpload.handleRemoveFile l index)) = length l) /\
  ((index < 0 \/ Z.of_nat (length l) <= index)%Z ->
     FileUpload.handleRemoveFile l index = l).
Proof.
  split.
  - intros H.
    assert (Hi : (Z.to_nat index < length l)%nat) by lia.
    pose proof (handleRemoveFile_hit l Hi) as E.
    rewrite Z2Nat.id in E by lia. rewrite E. split; [reflexivity|].
    rewrite length_app, length_firstn, length_skipn. lia.
  - apply handleRemoveFile_miss.
Qed.

Lemma C9_remove_total_witness :
  FileUpload.handleRemoveFile [a_txt; b_txt; c_txt] 1 = [a_txt; c_txt] /\
  FileUpload.handleRemoveFile [a_txt; b_txt; c_txt] (-1) = [a_txt; b_txt; c_txt] /\
  FileUpload.handleRemoveFile [a_txt; b_txt; c_txt] 3 = [a_txt; b_txt; c_txt].
Proof.
  split; [|split].
  - apply (proj1 (C9_remove_total [a_txt; b_txt; c_txt] 1)). simpl. lia.
  - apply (proj2 (C9_remove_total [a_txt; b_txt; c_txt] (-1))). simpl. lia.
  - apply (proj2 (C9_remove_total [a_txt; b_txt; c_txt] 3)). simpl. lia.
Defined.

(** ** The Query Input *)

Section Trim.

Lemma trim_start_blank s : blank s -> trim_start s = [].
Proof.
  induction 1 as [|c s Hc _ IH]; simpl; [reflexivity|].
  now rewrite Hc.
Qed.

Lemma trim_start_not_blank s :
  Exists (fun c => is_white_space c = false) s ->
  exists c t, trim_start s = c :: t /\ is_white_space c = false.
Proof.
  induction s as [|c s IH]; intros H; [inversion H|].
  simpl. destruct (is_white_space c) eqn:Ec.
  - inversion H; subst; [congruence|]. now apply IH.
  - now exists c, s.
Qed.

Lemma trim_blank s : blank s -> trim s = [].
Proof.
  intros H. unfold trim, trim_end. now rewrite (trim_start_blank H).
Qed.

Lemma trim_not_blank s :
  Exists (fun c => is_white_space c = false) s -> trim s <> [].
Proof.
  intros H. destruct (trim_start_not_blank H) as (c & t & E & Hc).
  unfold trim, trim_end. rewrite E.
  assert (Hr : Exists (fun c => is_white_space c = false) (rev (c :: t))).
  { apply Exists_exists. exists c. split; [|assumption].
    apply -> in_rev. now left. }
  destruct (trim_start_not_blank Hr) as (c' & t' & E' & _).
  rewrite E'. simpl. intros Habs.
  apply (f_equal (@length _)) in Habs.
  rewrite length_app in Habs. simpl in Habs. lia.
Qed.

End Trim.

(** C10: when the text is empty or made only of white space, [handleSubmit]
    does not call [onSubmit]; when it has a character that is not white
    space, [onSubmit] is called with the text as typed, not trimmed. *)
Theorem C10_submit_guard (query : jsstring) :
  (Forall (fun c => is_white_space c = true) query ->
     RecommendationInput.handleSubmit query = None) /\
  (Exists (fun c => is_white_space c = false) query ->
     RecommendationInput.handleSubmit query = Some query).
Proof.
  unfold RecommendationInput.handleSubmit. split; intros H.
  - now rewrite (trim_blank H).
  - pose proof (trim_not_blank H) as Hne.
    destruct (trim query); [congruence|reflexivity].
Qed.

Lemma C10_submit_guard_witness :
  RecommendationInput.handleSubmit (lit "   ") = None /\
  RecommendationInput.handleSubmit (lit "  next?  ") = Some (lit "  next?  ").
Proof.
  split.
  - apply (proj1 (C10_submit_guard (lit "   "))).
    repeat constructor.
  - apply (proj2 (C10_submit_guard (lit "  next?  "))).
    apply Exists_cons_tl, Exists_cons_tl, Exists_cons_hd. reflexivity.
Defined.

(** ** The Recommendation Request Orchestrator *)

Section Orchestrator.

Import RecommendationResults.

Variable env : option jsstring.

(** Whatever the outcome of [fetch] and whatever the cells, the
    continuation returns normally and does to the cells what the verdict
    says. *)
Lemma resume_verdict outcome h :
  fetchRecommendations_resume outcome h = (inr tt, apply_verdict (verdict outcome) h).
Proof.
  unfold verdict, fetchRecommendations_resume, try_finally, try_catch, try_block,
    catch_block, bind, lift, throw, ret, setError, setLoading, setRecommendations, json.
  destruct outcome as [m|[st stt [m|j]]]; cbn -[lit ok get to_string or_else];
    [reflexivity| |].
  - destruct (ok _); cbn -[lit to_string or_else]; [reflexivity|].
    rewrite jsstring_eqb_refl. cbn -[lit to_string or_else].
    unfold or_else. destruct stt; reflexivity.
  - destruct (ok _); cbn -[lit to_string or_else get].
    + destruct (get (Val j) (lit "recommendations")) as [e|v]; cbn;
        [destruct e|]; reflexivity.
    + destruct (get (Val j) (lit "detail")) as [e|v]; cbn -[lit to_string or_else];
        [destruct e; reflexivity|].
      destruct (to_string _) as [e|s]; cbn; [destruct e|]; reflexivity.
Qed.

Lemma append_files (k : jsstring) : forall (fs : list File) (fd : FormData),
  fold_left (fun fd file => append fd k (Blob file)) fs fd =
  fd ++ map (fun f => (k, Blob f)) fs.
Proof.
  induction fs as [|f fs IH]; intros fd; simpl.
  - now rewrite app_nil_r.
  - rewrite IH. unfold append. now rewrite <- app_assoc.
Qed.

(** The request a submission with files makes. *)
Lemma start_with_files q f fs h :
  fetchRecommendations_start env q (f :: fs) h =
  (inr (Some {| url := endpoint env; method := lit "POST";
                body := (lit "query", Text q)
                          :: map (fun x => (lit "files", Blob x)) (f :: fs) |}),
   pending h).
Proof.
  unfold fetchRecommendations_start, bind, setLoading, setError, ret.
  cbn -[lit fold_left map]. rewrite append_files. reflexivity.
Qed.

Lemma start_without_files q h :
  fetchRecommendations_start env q [] h = (inr None, h).
Proof. reflexivity. Qed.

Lemma endpoint_base :
  endpoint env =
  match env with Some base => base | None => [] end ++ lit "/api/recommendations".
Proof.
  unfold endpoint, API_URL. destruct env as [[|c s]|]; reflexivity.
Qed.

Lemma run_effect_with_files (o : Instance) :
  files o <> [] ->
  run_effect env o =
    let req := {| url := endpoint env; method := lit "POST";
                  body := (lit "query", Text (query o))
                            :: map (fun x => (lit "files", Blob x)) (files o) |} in
    {| query := query o; files := files o; hooks := pending (hooks o);
       inflight := inflight o ++ [req]; sent := sent o ++ [req];
       unhandled := unhandled o |}.
Proof.
  intros H. unfold run_effect.
  destruct (files o) as [|f fs] eqn:E; [congruence|].
  rewrite start_with_files. cbv zeta. now rewrite app_nil_r.
Qed.

Lemma submit_with_files q fs (o : Instance) :
  fs <> [] ->
  submit env q fs o =
    let req := {| url := endpoint env; method := lit "POST";
                  body := (lit "query", Text q)
                            :: map (fun x => (lit "files", Blob x)) fs |} in
    {| query := q; files := fs; hooks := pending (hooks o);
       inflight := inflight o ++ [req]; sent := sent o ++ [req];
       unhandled := unhandled o |}.
Proof.
  intros H. unfold submit. now rewrite run_effect_with_files by exact H.
Qed.

Lemma run_effect_without_files (o : Instance) :
  files o = [] -> run_effect env o = o.
Proof.
  intros H. unfold run_effect. rewrite H, start_without_files.
  destruct o; simpl in *. subst. now rewrite !app_nil_r.
Qed.

Lemma settle_inflight n outcome (o : Instance) :
  (n < length (inflight o))%nat ->
  settle n outcome o =
    Some {| query := query o; files := files o;
            hooks := apply_verdict (verdict outcome) (hooks o);
            inflight := remove_nth n (inflight o); sent := sent o;
            unhandled := unhandled o |}.
Proof.
  intros H. unfold settle.
  destruct (nth_error (inflight o) n) eqn:E.
  - rewrite resume_verdict. now rewrite app_nil_r.
  - apply nth_error_None in E. lia.
Qed.

Lemma settle_hooks n outcome (o o' : Instance) :
  settle n outcome o = Some o' ->
  hooks o' = apply_verdict (verdict outcome) (hooks o) /\
  files o' = files o /\ query o' = query o /\ sent o' = sent o /\
  unhandled o' = unhandled o.
Proof.
  unfold settle. destruct (nth_error (inflight o) n); [|discriminate].
  rewrite resume_verdict. intros H. inversion H; subst; simpl.
  now rewrite app_nil_r.
Qed.

(** What [render] shows, read back as a statement about the cells. *)
Lemma render_cases (fs : list File) (h : Hooks) :
  match render fs h with
  | Spinner => loading h = true
  | ErrorBox m => loading h = false /\ error h = Some m /\ m <> []
  | Markdown v n =>
      loading h = false /\ (error h = None \/ error h = Some []) /\
      recommendations h = v /\ truthy v = true /\ n = length fs
  | Nothing =>
      loading h = false /\ (error h = None \/ error h = Some []) /\
      truthy (recommendations h) = false
  end.
Proof.
  unfold render. destruct (loading h); [reflexivity|].
  destruct (error h) as [[|c s]|];
    destruct (truthy (recommendations h)) eqn:T; simpl;
    repeat split; auto; discriminate.
Qed.

Lemma render_error fs h c s :
  loading h = false -> error h = Some (c :: s) -> render fs h = ErrorBox (c :: s).
Proof. intros L E. unfold render. now rewrite L, E. Qed.

End Orchestrator.

(** A run of the effect with at least one file, on mount or on a later
    render, makes exactly one request, a POST to the configured base
    followed by [/api/recommendations], whose form holds the field [query]
    with the query prop and then one [files] part per file, in the order of
    the list. *)
Lemma effect_run_posts_once (env : option jsstring) (q : jsstring)
    (fs : list File) (o : RecommendationResults.Instance) :
  fs <> [] ->
  exists req,
    RecommendationResults.sent (RecommendationResults.submit env q fs o)
      = RecommendationResults.sent o ++ [req] /\
    RecommendationResults.inflight (RecommendationResults.submit env q fs o)
      = RecommendationResults.inflight o ++ [req] /\
    RecommendationResults.sent (RecommendationResults.mount env q fs) = [req] /\
    RecommendationResults.url req
      = match env with Some base => base | None => [] end
          ++ lit "/api/recommendations" /\
    RecommendationResults.method req = lit "POST" /\
    RecommendationResults.body req
      = (lit "query", RecommendationResults.Text q)
          :: map (fun f => (lit "files", RecommendationResults.Blob f)) fs.
Proof.
  intros H. unfold RecommendationResults.submit, RecommendationResults.mount.
  rewrite !run_effect_with_files by exact H. cbv zeta. simpl.
  eexists. repeat (split; [reflexivity|]).
  split; [apply endpoint_base|]. split; reflexivity.
Qed.

(** What the verdict is on the responses the service is documented to give. *)
Lemma verdict_rejected m :
  RecommendationResults.verdict (RecommendationResults.Rejected m) = inl m.
Proof. reflexivity. Qed.

Lemma verdict_ok_member res members j :
  RecommendationResults.ok res = true ->
  RecommendationResults.payload res = RecommendationResults.IsJSON (JObj members) ->
  lookup (lit "recommendations") members = Some j ->
  RecommendationResults.verdict (RecommendationResults.Resolved res) = inr (Val j).
Proof.
  intros Hok Hp Hl.
  unfold RecommendationResults.verdict, RecommendationResults.fetchRecommendations_resume,
    RecommendationResults.try_finally, RecommendationResults.try_catch,
    RecommendationResults.try_block, RecommendationResults.bind,
    RecommendationResults.lift, RecommendationResults.json.
  cbn -[lit RecommendationResults.ok lookup]. rewrite Hok, Hp.
  cbn -[lit lookup]. rewrite Hl. reflexivity.
Qed.

Lemma verdict_ok_no_member res members :
  RecommendationResults.ok res = true ->
  RecommendationResults.payload res = RecommendationResults.IsJSON (JObj members) ->
  lookup (lit "recommendations") members = None ->
  RecommendationResults.verdict (RecommendationResults.Resolved res) = inr Undefined.
Proof.
  intros Hok Hp Hl.
  unfold RecommendationResults.verdict, RecommendationResults.fetchRecommendations_resume,
    RecommendationResults.try_finally, RecommendationResults.try_catch,
    RecommendationResults.try_block, RecommendationResults.bind,
    RecommendationResults.lift, RecommendationResults.json.
  cbn -[lit RecommendationResults.ok lookup]. rewrite Hok, Hp.
  cbn -[lit lookup]. rewrite Hl. reflexivity.
Qed.

Lemma verdict_ok_not_json res m :
  RecommendationResults.ok res = true ->
  RecommendationResults.payload res = RecommendationResults.NotJSON m ->
  RecommendationResults.verdict (RecommendationResults.Resolved res) = inl m.
Proof.
  intros Hok Hp.
  unfold RecommendationResults.verdict, RecommendationResults.fetchRecommendations_resume,
    RecommendationResults.try_finally, RecommendationResults.try_catch,
    RecommendationResults.try_block, RecommendationResults.bind,
    RecommendationResults.lift, RecommendationResults.json.
  cbn -[lit RecommendationResults.ok]. rewrite Hok, Hp. reflexivity.
Qed.

Lemma verdict_failed_detail res members d :
  RecommendationResults.ok res = false ->
  RecommendationResults.payload res = RecommendationResults.IsJSON (JObj members) ->
  lookup (lit "detail") members = Some (JStr d) ->
  RecommendationResults.verdict (RecommendationResults.Resolved res)
    = inl (match d with
           | [] => RecommendationResults.fallback_message
           | _ :: _ => d
           end).
Proof.
  intros Hok Hp Hl.
  unfold RecommendationResults.verdict, RecommendationResults.fetchRecommendations_resume,
    RecommendationResults.try_finally, RecommendationResults.try_catch,
    RecommendationResults.try_block, RecommendationResults.bind,
    RecommendationResults.lift, RecommendationResults.json.
  cbn -[lit RecommendationResults.ok lookup or_else to_string]. rewrite Hok, Hp.
  cbn -[lit lookup or_else to_string]. rewrite Hl.
  destruct d; reflexivity.
Qed.

Lemma verdict_failed_not_json res m :
  RecommendationResults.ok res = false ->
  RecommendationResults.payload res = RecommendationResults.NotJSON m ->
  RecommendationResults.verdict (RecommendationResults.Resolved res)
    = inl (match RecommendationResults.statusText res with
           | [] => RecommendationResults.fallback_message
           | _ :: _ => RecommendationResults.statusText res
           end).
Proof.
  intros Hok Hp.
  unfold RecommendationResults.verdict, RecommendationResults.fetchRecommendations_resume,
    RecommendationResults.try_finally, RecommendationResults.try_catch,
    RecommendationResults.try_block, RecommendationResults.bind,
    RecommendationResults.lift, RecommendationResults.json.
  cbn -[lit RecommendationResults.ok lookup or_else to_string]. rewrite Hok, Hp.
  cbn -[lit or_else to_string]. rewrite jsstring_eqb_refl.
  destruct (RecommendationResults.statusText res); reflexivity.
Qed.

(** C3, as the code has it: for a response outside 200-299 the continuation
    returns normally with [loading] off and an error shown; the message is
    the [detail] string of a JSON object body when that string is not empty,
    the fixed text [Failed to get recommendations] when it is empty, and
    for a body that does not parse the status text, or the same fixed text
    when the status text is empty. *)
Theorem C3_error_surfacing (res : RecommendationResults.Response)
    (h : RecommendationResults.Hooks) (fs : list File) :
  RecommendationResults.ok res = false ->
  let r := RecommendationResults.fetchRecommendations_resume
             (RecommendationResults.Resolved res) h in
  fst r = inr tt /\
  RecommendationResults.loading (snd r) = false /\
  (forall members d,
      RecommendationResults.payload res = RecommendationResults.IsJSON (JObj members) ->
      lookup (lit "detail") members = Some (JStr d) ->
      let message := match d with
                     | [] => RecommendationResults.fallback_message
                     | _ :: _ => d
                     end in
      RecommendationResults.error (snd r) = Some message /\
      RecommendationResults.render fs (snd r) = RecommendationResults.ErrorBox message) /\
  (forall m,
      RecommendationResults.payload res = RecommendationResults.NotJSON m ->
      let message := match RecommendationResults.statusText res with
                     | [] => RecommendationResults.fallback_message
                     | _ :: _ => RecommendationResults.statusText res
                     end in
      RecommendationResults.error (snd r) = Some message /\
      RecommendationResults.render fs (snd r) = RecommendationResults.ErrorBox message).
Proof.
  intros Hok r. subst r. rewrite resume_verdict. simpl fst. simpl snd.
  split; [reflexivity|]. split.
  - destruct (RecommendationResults.verdict _); reflexivity.
  - split.
    + intros members d Hp Hl message. subst message.
      rewrite (verdict_failed_detail res Hok Hp Hl).
      destruct d; split; reflexivity.
    + intros m Hp message. subst message.
      rewrite (verdict_failed_not_json res Hok Hp).
      destruct (RecommendationResults.statusText res); split; reflexivity.
Qed.

Lemma C3_error_surfacing_witness :
  RecommendationResults.render [a_txt]
    (snd (RecommendationResults.fetchRecommendations_resume
            (RecommendationResults.Resolved Samples.rate_limited)
            RecommendationResults.initial_hooks))
    = RecommendationResults.ErrorBox (lit "rate limited") /\
  RecommendationResults.render [a_txt]
    (snd (RecommendationResults.fetchRecommendations_resume
            (RecommendationResults.Resolved Samples.bad_gateway)
            RecommendationResults.initial_hooks))
    = RecommendationResults.ErrorBox (lit "Bad Gateway").
Proof.
  split.
  - destruct (@C3_error_surfacing Samples.rate_limited
                RecommendationResults.initial_hooks [a_txt] eq_refl)
      as (_ & _ & Hd & _).
    exact (proj2 (Hd _ (lit "rate limited") eq_refl eq_refl)).
  - destruct (@C3_error_surfacing Samples.bad_gateway
                RecommendationResults.initial_hooks [a_txt] eq_refl)
      as (_ & _ & _ & Hn).
    exact (proj2 (Hn _ eq_refl)).
Defined.

(** C3 as the spec words it does not hold: a [detail] that is the empty
    string is replaced by the fixed text. *)
Lemma C3_counterexample_empty_detail :
  ~ (forall (res : RecommendationResults.Response) (h : RecommendationResults.Hooks)
            members d,
        RecommendationResults.ok res = false ->
        RecommendationResults.payload res = RecommendationResults.IsJSON (JObj members) ->
        lookup (lit "detail") members = Some (JStr d) ->
        RecommendationResults.error
          (snd (RecommendationResults.fetchRecommendations_resume
                  (RecommendationResults.Resolved res) h)) = Some d).
Proof.
  intros H.
  specialize (H Samples.empty_detail RecommendationResults.initial_hooks
                [(lit "detail", JStr [])] [] eq_refl eq_refl eq_refl).
  vm_compute in H. discriminate H.
Qed.

(** C4, as the code has it: for a response in 200-299 whose body does not
    parse, the parser's message becomes the error, the stored
    recommendations stay as they were, and the error box is shown when the
    message is not empty; for a body that is a JSON object without the
    member [recommendations] no error is set, the stored recommendations
    become [undefined], and with no error stored the component renders
    nothing. *)
Theorem C4_malformed_success_body (res : RecommendationResults.Response)
    (h : RecommendationResults.Hooks) (fs : list File) :
  RecommendationResults.ok res = true ->
  let r := RecommendationResults.fetchRecommendations_resume
             (RecommendationResults.Resolved res) h in
  fst r = inr tt /\
  RecommendationResults.loading (snd r) = false /\
  (forall m,
      RecommendationResults.payload res = RecommendationResults.NotJSON m ->
      RecommendationResults.error (snd r) = Some m /\
      RecommendationResults.recommendations (snd r)
        = RecommendationResults.recommendations h /\
      (m <> [] ->
       RecommendationResults.render fs (snd r) = RecommendationResults.ErrorBox m)) /\
  (forall members,
      RecommendationResults.payload res = RecommendationResults.IsJSON (JObj members) ->
      lookup (lit "recommendations") members = None ->
      RecommendationResults.error (snd r) = RecommendationResults.error h /\
      RecommendationResults.recommendations (snd r) = Undefined /\
      (RecommendationResults.error h = None ->
       RecommendationResults.render fs (snd r) = RecommendationResults.Nothing)).
Proof.
  intros Hok r. subst r. rewrite resume_verdict. simpl fst. simpl snd.
  split; [reflexivity|]. split.
  - destruct (RecommendationResults.verdict _); reflexivity.
  - split.
    + intros m Hp. rewrite (verdict_ok_not_json res Hok Hp). simpl.
      repeat split. intros Hm. destruct m; [congruence|reflexivity].
    + intros members Hp Hl. rewrite (verdict_ok_no_member res Hok Hp Hl). simpl.
      repeat split. intros He. unfold RecommendationResults.render. simpl.
      now rewrite He.
Qed.

Lemma C4_malformed_success_body_witness :
  RecommendationResults.render [a_txt]
    (snd (RecommendationResults.fetchRecommendations_resume
            (RecommendationResults.Resolved Samples.ok_html)
            RecommendationResults.initial_hooks))
    = RecommendationResults.ErrorBox (lit "Unexpected token '<'") /\
  RecommendationResults.render [a_txt]
    (snd (RecommendationResults.fetchRecommendations_resume
            (RecommendationResults.Resolved Samples.ok_empty_object)
            RecommendationResults.initial_hooks))
    = RecommendationResults.Nothing.
Proof.
  split.
  - destruct (@C4_malformed_success_body Samples.ok_html
                RecommendationResults.initial_hooks [a_txt] eq_refl)
      as (_ & _ & Hn & _).
    apply (Hn _ eq_refl). discriminate.
  - destruct (@C4_malformed_success_body Samples.ok_empty_object
                RecommendationResults.initial_hooks [a_txt] eq_refl)
      as (_ & _ & _ & Ho).
    exact (proj2 (proj2 (Ho _ eq_refl eq_refl)) eq_refl).
Defined.

(** C4 as the spec words it does not hold: after the body [{}] of a 200
    response, arriving at a component that has just submitted, nothing is
    rendered and no error is stored. *)
Lemma C4_counterexample_blank :
  ~ (forall (res : RecommendationResults.Response) (q : jsstring) (fs : list File)
            members,
        fs <> [] ->
        RecommendationResults.ok res = true ->
        RecommendationResults.payload res = RecommendationResults.IsJSON (JObj members) ->
        lookup (lit "recommendations") members = None ->
        exists message,
          RecommendationResults.render fs
            (snd (RecommendationResults.fetchRecommendations_resume
                    (RecommendationResults.Resolved res)
                    (snd (RecommendationResults.fetchRecommendations_start
                            None q fs RecommendationResults.initial_hooks))))
          = RecommendationResults.ErrorBox message).
Proof.
  intros H.
  destruct (H Samples.ok_empty_object (lit "What should we build next?") [a_txt] []
              ltac:(discriminate) eq_refl eq_refl eq_refl) as (message & Hm).
  vm_compute in Hm. discriminate Hm.
Qed.

(** ** Reachable instances *)

Section Reachable.

Import RecommendationResults.

Variable env : option jsstring.

Lemma run_effect_clean (o : Instance) :
  spinner_clean (hooks o) -> spinner_clean (hooks (run_effect env o)).
Proof.
  intros H. destruct (files o) as [|f fs] eqn:E.
  - now rewrite run_effect_without_files.
  - rewrite run_effect_with_files by (rewrite E; discriminate).
    intros _. reflexivity.
Qed.

Lemma step_clean (o o' : Instance) e :
  spinner_clean (hooks o) -> step env o e = Some o' -> spinner_clean (hooks o').
Proof.
  intros H. destruct e as [q fs|n outcome]; simpl.
  - intros E. inversion E; subst. unfold submit. now apply run_effect_clean.
  - intros E. apply settle_hooks in E. destruct E as (E & _).
    rewrite E. intros L. destruct (verdict outcome); discriminate L.
Qed.

Lemma steps_clean : forall es (o o' : Instance),
  spinner_clean (hooks o) -> steps env o es = Some o' -> spinner_clean (hooks o').
Proof.
  induction es as [|e es IH]; intros o o' H; simpl.
  - intros E. now inversion E; subst.
  - destruct (step env o e) as [o1|] eqn:E1; [|discriminate].
    apply IH. eapply step_clean; eassumption.
Qed.

Lemma reachable_clean (o : Instance) :
  reachable env o -> spinner_clean (hooks o).
Proof.
  intros (q & fs & es & H). eapply steps_clean; [|exact H].
  unfold mount. apply run_effect_clean. intros _. reflexivity.
Qed.

End Reachable.

(** In every reachable instance the component shows exactly one of four
    things, the spinner, the error box, the markdown, or nothing at all,
    each fixed by the three cells as stated, and no error is stored while
    the spinner is up; a run of the effect with at least one file puts the
    spinner up and clears the stored error, the stored recommendations
    staying in their cell. *)
Lemma instance_display_states (env : option jsstring)
    (o : RecommendationResults.Instance) :
  RecommendationResults.reachable env o ->
  (RecommendationResults.loading (RecommendationResults.hooks o) = true ->
   RecommendationResults.error (RecommendationResults.hooks o) = None) /\
  match RecommendationResults.display o with
  | RecommendationResults.Spinner =>
      RecommendationResults.loading (RecommendationResults.hooks o) = true
  | RecommendationResults.ErrorBox m =>
      RecommendationResults.loading (RecommendationResults.hooks o) = false /\
      RecommendationResults.error (RecommendationResults.hooks o) = Some m /\ m <> []
  | RecommendationResults.Markdown v n =>
      RecommendationResults.loading (RecommendationResults.hooks o) = false /\
      (RecommendationResults.error (RecommendationResults.hooks o) = None \/
       RecommendationResults.error (RecommendationResults.hooks o) = Some []) /\
      RecommendationResults.recommendations (RecommendationResults.hooks o) = v /\
      truthy v = true /\ n = length (RecommendationResults.files o)
  | RecommendationResults.Nothing =>
      RecommendationResults.loading (RecommendationResults.hooks o) = false /\
      (RecommendationResults.error (RecommendationResults.hooks o) = None \/
       RecommendationResults.error (RecommendationResults.hooks o) = Some []) /\
      truthy (RecommendationResults.recommendations (RecommendationResults.hooks o)) = false
  end /\
  (forall q fs,
      fs <> [] ->
      let o' := RecommendationResults.submit env q fs o in
      RecommendationResults.display o' = RecommendationResults.Spinner /\
      RecommendationResults.error (RecommendationResults.hooks o') = None /\
      RecommendationResults.recommendations (RecommendationResults.hooks o')
        = RecommendationResults.recommendations (RecommendationResults.hooks o)).
Proof.
  intros Hr. split; [exact (reachable_clean Hr)|]. split.
  - apply render_cases.
  - intros q fs Hfs o'. subst o'. unfold RecommendationResults.submit.
    rewrite run_effect_with_files by exact Hfs.
    repeat split.
Qed.

(** An instance that got the body [{}] with status 200. *)
Lemma blank_reachable :
  exists o,
    RecommendationResults.steps None
      (RecommendationResults.mount None (lit "What should we build next?") [a_txt])
      [RecommendationResults.Settle 0
         (RecommendationResults.Resolved Samples.ok_empty_object)] = Some o /\
    RecommendationResults.display o = RecommendationResults.Nothing.
Proof. eexists. split; reflexivity. Qed.

(** C5 as the spec words it does not hold: an instance is reachable in
    which none of the three variants is shown. *)
Lemma C5_counterexample_blank :
  ~ (forall env (o : RecommendationResults.Instance),
        RecommendationResults.reachable env o ->
        RecommendationResults.display o = RecommendationResults.Spinner \/
        (exists m, RecommendationResults.display o = RecommendationResults.ErrorBox m) \/
        (exists v n, RecommendationResults.display o = RecommendationResults.Markdown v n)).
Proof.
  intros H. destruct blank_reachable as (o & Hs & Hd).
  assert (Hr : RecommendationResults.reachable None o).
  { eexists _, _, _. exact Hs. }
  destruct (H None o Hr) as [E|[(m & E)|(v & n & E)]];
    rewrite Hd in E; discriminate E.
Qed.

(** ** Two submissions in flight *)

Section Overlap.

Import RecommendationResults.

Lemma nth_error_last_two {A} (l : list A) a b :
  nth_error (l ++ [a; b]) (length l) = Some a /\
  nth_error (l ++ [a; b]) (S (length l)) = Some b.
Proof.
  split; rewrite nth_error_app2 by lia.
  - now rewrite Nat.sub_diag.
  - replace (S (length l) - length l)%nat with 1%nat by lia. reflexivity.
Qed.

Lemma remove_nth_last {A} : forall (l : list A) a b,
  remove_nth (S (length l)) (l ++ [a; b]) = l ++ [a] /\
  remove_nth (length l) (l ++ [a]) = l.
Proof.
  induction l as [|x l IH]; intros a b; [split; reflexivity|].
  destruct (IH a b) as (E1 & E2).
  cbn [length app]. split.
  - change (remove_nth (S (S (length l))) (x :: l ++ [a; b]))
      with (x :: remove_nth (S (length l)) (l ++ [a; b])).
    now rewrite E1.
  - change (remove_nth (S (length l)) (x :: l ++ [a]))
      with (x :: remove_nth (length l) (l ++ [a])).
    now rewrite E2.
Qed.

Variable env : option jsstring.

(** The run in which A is submitted, then B, then B's response arrives,
    then A's. *)
Lemma overlap_run (o : Instance) qA fsA qB fsB outA outB :
  fsA <> [] -> fsB <> [] ->
  exists o3 o4,
    steps env o [Submit qA fsA; Submit qB fsB;
                 Settle (S (length (inflight o))) outB] = Some o3 /\
    step env o3 (Settle (length (inflight o)) outA) = Some o4 /\
    files o4 = fsB /\
    hooks o3 = apply_verdict (verdict outB) (pending (hooks o)) /\
    hooks o4 = apply_verdict (verdict outA) (hooks o3).
Proof.
  intros HA HB. cbn [steps step].
  rewrite (submit_with_files env qA o HA). cbv zeta.
  rewrite (submit_with_files env qB _ HB). cbv zeta.
  cbn [inflight sent hooks unhandled].
  rewrite <- app_assoc. cbn [app].
  set (rA := {| url := endpoint env; method := lit "POST";
                body := (lit "query", Text qA) :: _ |}).
  set (rB := {| url := endpoint env; method := lit "POST";
                body := (lit "query", Text qB) :: _ |}).
  destruct (nth_error_last_two (inflight o) rA rB) as (NA & NB).
  destruct (remove_nth_last (inflight o) rA rB) as (RB & RA).
  rewrite settle_inflight by (simpl; rewrite length_app; simpl; lia).
  cbn [query files hooks inflight sent unhandled]. rewrite RB.
  eexists. eexists. split; [reflexivity|].
  cbn [step].
  rewrite settle_inflight by (simpl; rewrite length_app; simpl; lia).
  cbn [query files hooks inflight sent unhandled]. rewrite RA.
  repeat split.
Qed.

End Overlap.

(** C2, as the code has it: when A is submitted, then B, each with a file,
    and B's response arrives before A's, the cells end as A's response left
    them on top of B's, and the display is fixed in every case.  When A
    failed with a message that is not empty, A's message is shown.  When A
    succeeded, B's message is shown if B failed with a message that is not
    empty, and otherwise A's recommendations (or nothing, if they are
    falsy).  When A failed with the empty message, no error box is shown:
    B's recommendations stay on screen if B succeeded, and otherwise the
    recommendations stored before the two submissions (or nothing, if
    falsy). *)
Theorem C2_late_response_overwrites (env : option jsstring)
    (o : RecommendationResults.Instance) (qA : jsstring) (fsA : list File)
    (qB : jsstring) (fsB : list File)
    (outA outB : RecommendationResults.FetchOutcome) :
  fsA <> [] -> fsB <> [] ->
  exists o3 o4,
    RecommendationResults.steps env o
      [RecommendationResults.Submit qA fsA; RecommendationResults.Submit qB fsB;
       RecommendationResults.Settle
         (S (length (RecommendationResults.inflight o))) outB] = Some o3 /\
    RecommendationResults.step env o3
      (RecommendationResults.Settle
         (length (RecommendationResults.inflight o)) outA) = Some o4 /\
    RecommendationResults.loading (RecommendationResults.hooks o4) = false /\
    (forall c s,
        RecommendationResults.verdict outA = inl (c :: s) ->
        RecommendationResults.display o4 = RecommendationResults.ErrorBox (c :: s)) /\
    (forall vA vB,
        RecommendationResults.verdict outA = inr vA ->
        RecommendationResults.verdict outB = inr vB ->
        RecommendationResults.display o4
          = if truthy vA then RecommendationResults.Markdown vA (length fsB)
            else RecommendationResults.Nothing) /\
    (forall vA c s,
        RecommendationResults.verdict outA = inr vA ->
        RecommendationResults.verdict outB = inl (c :: s) ->
        RecommendationResults.display o4 = RecommendationResults.ErrorBox (c :: s) /\
        RecommendationResults.recommendations (RecommendationResults.hooks o4) = vA) /\
    (forall vA,
        RecommendationResults.verdict outA = inr vA ->
        RecommendationResults.verdict outB = inl [] ->
        RecommendationResults.display o4
          = if truthy vA then RecommendationResults.Markdown vA (length fsB)
            else RecommendationResults.Nothing) /\
    (forall vB,
        RecommendationResults.verdict outA = inl [] ->
        RecommendationResults.verdict outB = inr vB ->
        RecommendationResults.display o4
          = if truthy vB then RecommendationResults.Markdown vB (length fsB)
            else RecommendationResults.Nothing) /\
    (forall mB,
        RecommendationResults.verdict outA = inl [] ->
        RecommendationResults.verdict outB = inl mB ->
        RecommendationResults.display o4
          = if truthy (RecommendationResults.recommendations
                         (RecommendationResults.hooks o))
            then RecommendationResults.Markdown
                   (RecommendationResults.recommendations
                      (RecommendationResults.hooks o)) (length fsB)
            else RecommendationResults.Nothing).
Proof.
  intros HA HB.
  destruct (overlap_run env o qA qB outA outB HA HB)
    as (o3 & o4 & H3 & H4 & Hf & E3 & E4).
  exists o3, o4. split; [exact H3|]. split; [exact H4|].
  unfold RecommendationResults.display. rewrite Hf, E4, E3.
  split; [destruct (RecommendationResults.verdict outA); reflexivity|].
  split; [|split; [|split; [|split; [|split]]]].
  - intros c s EA. rewrite EA. reflexivity.
  - intros vA vB EA EB. rewrite EA, EB.
    unfold RecommendationResults.render. simpl. destruct (truthy vA); reflexivity.
  - intros vA c s EA EB. rewrite EA, EB. split; reflexivity.
  - intros vA EA EB. rewrite EA, EB.
    unfold RecommendationResults.render. simpl. destruct (truthy vA); reflexivity.
  - intros vB EA EB. rewrite EA, EB.
    unfold RecommendationResults.render. simpl. destruct (truthy vB); reflexivity.
  - intros mB EA EB. rewrite EA, EB.
    unfold RecommendationResults.render. simpl.
    destruct (truthy (RecommendationResults.recommendations
                        (RecommendationResults.hooks o))); reflexivity.
Qed.

Lemma C2_late_response_overwrites_witness :
  (exists o4,
     RecommendationResults.steps None
       (RecommendationResults.mount None (lit "A") [a_txt])
       [RecommendationResults.Submit (lit "B") [b_txt];
        RecommendationResults.Settle 1
          (RecommendationResults.Resolved (Samples.ok_with (lit "for B")));
        RecommendationResults.Settle 0
          (RecommendationResults.Resolved (Samples.ok_with (lit "for A")))] = Some o4 /\
     RecommendationResults.display o4
       = RecommendationResults.Markdown (Val (JStr (lit "for A"))) 1) /\
  (exists o4,
     RecommendationResults.steps None
       (RecommendationResults.mount None (lit "A") [a_txt])
       [RecommendationResults.Submit (lit "B") [b_txt];
        RecommendationResults.Settle 1
          (RecommendationResults.Resolved (Samples.ok_with (lit "for B")));
        RecommendationResults.Settle 0
          (RecommendationResults.Resolved Samples.empty_array_detail)] = Some o4 /\
     RecommendationResults.display o4
       = RecommendationResults.Markdown (Val (JStr (lit "for B"))) 1).
Proof.
  split.
  - destruct (@C2_late_response_overwrites None
                {| RecommendationResults.query := [];
                   RecommendationResults.files := [];
                   RecommendationResults.hooks := RecommendationResults.initial_hooks;
                   RecommendationResults.inflight := [];
                   RecommendationResults.sent := [];
                   RecommendationResults.unhandled := [] |}
                (lit "A") [a_txt] (lit "B") [b_txt]
                (RecommendationResults.Resolved (Samples.ok_with (lit "for A")))
                (RecommendationResults.Resolved (Samples.ok_with (lit "for B"))))
      as (o3 & o4 & H3 & H4 & _ & _ & Hboth & _); [discriminate|discriminate|].
    exists o4. split.
    + vm_compute in H3. inversion H3; subst o3. exact H4.
    + exact (Hboth _ _ eq_refl eq_refl).
  - destruct (@C2_late_response_overwrites None
                {| RecommendationResults.query := [];
                   RecommendationResults.files := [];
                   RecommendationResults.hooks := RecommendationResults.initial_hooks;
                   RecommendationResults.inflight := [];
                   RecommendationResults.sent := [];
                   RecommendationResults.unhandled := [] |}
                (lit "A") [a_txt] (lit "B") [b_txt]
                (RecommendationResults.Resolved Samples.empty_array_detail)
                (RecommendationResults.Resolved (Samples.ok_with (lit "for B"))))
      as (o3 & o4 & H3 & H4 & _ & _ & _ & _ & _ & Hempty & _);
      [discriminate|discriminate|].
    exists o4. split.
    + vm_compute in H3. inversion H3; subst o3. exact H4.
    + exact (Hempty _ eq_refl eq_refl).
Defined.

(** C2 as the spec words it does not hold: B's recommendations are on
    screen when A's response arrives, and A's replace them. *)
Lemma C2_counterexample_stale_response :
  ~ (forall env qA fsA qB fsB outA outB o3 o4,
        fsA <> [] -> fsB <> [] ->
        RecommendationResults.steps env (RecommendationResults.mount env qA fsA)
          [RecommendationResults.Submit qB fsB;
           RecommendationResults.Settle 1 outB] = Some o3 ->
        RecommendationResults.step env o3 (RecommendationResults.Settle 0 outA)
          = Some o4 ->
        RecommendationResults.display o4 = RecommendationResults.display o3).
Proof.
  intros H.
  specialize (H None (lit "A") [a_txt] (lit "B") [b_txt]
                (RecommendationResults.Resolved (Samples.ok_with (lit "for A")))
                (RecommendationResults.Resolved (Samples.ok_with (lit "for B")))
                _ _ ltac:(discriminate) ltac:(discriminate) eq_refl eq_refl).
  vm_compute in H. discriminate H.
Qed.

(** ** The page *)

Section Page.

Import App.

Variable env : option jsstring.

(** [showResults] and [isInteracting] are set together and never reset,
    and an instance is mounted only in a slot the page renders. *)
Lemma commit_linked (w : World) s' b :
  showResults s' = isInteracting s' ->
  linked (commit env w s' b).
Proof.
  intros H. unfold linked, commit.
  destruct (slot_of s') as [sl'|] eqn:E; [|simpl; auto].
  destruct (results w) as [[sl o]|]; [|simpl; split; [exact H|congruence]].
  destruct (slot_eqb sl sl'); simpl; split; try exact H; congruence.
Qed.

Lemma step_linked (w : World) e : linked w -> linked (step env w e).
Proof.
  intros Hw. pose proof Hw as (Hf & Hs).
  destruct e as [text|target|index|n outcome]; cbn [step].
  - destruct (RecommendationInput.handleSubmit text); [|exact Hw].
    now apply commit_linked.
  - destruct target as [fs|]; cbn [FileUpload.handleFileSelect]; [|exact Hw].
    now apply commit_linked.
  - now apply commit_linked.
  - destruct (results w) as [[sl o]|] eqn:E; [|exact Hw].
    destruct (RR.settle n outcome o); [|exact Hw].
    split; [exact Hf|]. cbn [app results]. intros H. specialize (Hs H). congruence.
Qed.

Lemma reachable_linked (w : World) : reachable env w -> linked w.
Proof.
  intros (es & H). subst w. unfold run.
  assert (G : forall es w, linked w -> linked (fold_left (step env) es w)).
  { clear es. induction es as [|e es IH]; intros w Hw; simpl; [exact Hw|].
    apply IH. now apply step_linked. }
  apply G. split; [reflexivity|]. reflexivity.
Qed.

(** The prompt to upload documents is rendered in no reachable state. *)
Lemma upload_prompt_unreachable (w : World) :
  reachable env w -> shows_upload_prompt (app w) = false.
Proof.
  intros H. destruct (reachable_linked H) as (Hf & _).
  unfold shows_upload_prompt. rewrite Hf.
  destruct (isInteracting (app w)); simpl;
    [apply andb_false_r|reflexivity].
Qed.

End Page.

(** C1, what the code does: when the form is submitted while no file is
    uploaded, no request is added to the network log and no instance of
    [RecommendationResults] is mounted, for any text; but none of the three
    conditional blocks is rendered afterwards, the prompt to upload
    documents included.  The effect itself, run with no file, makes no
    request and leaves the cells alone. *)
Theorem C1_submit_without_files (env : option jsstring) (w : App.World)
    (text : jsstring) :
  App.reachable env w ->
  App.uploadedFiles (App.app w) = [] ->
  let w' := App.step env w (App.FormSubmitted text) in
  App.network w' = App.network w /\
  App.results w' = None /\
  App.shows_upload_prompt (App.app w') = false /\
  App.shows_results_in_card (App.app w') = false /\
  App.shows_results_above_input (App.app w') = false /\
  (forall q (o : RecommendationResults.Instance),
      RecommendationResults.sent (RecommendationResults.submit env q [] o)
        = RecommendationResults.sent o /\
      RecommendationResults.hooks (RecommendationResults.submit env q [] o)
        = RecommendationResults.hooks o).
Proof.
  intros Hr Hfs w'.
  assert (Hguard : forall q (o : RecommendationResults.Instance),
             RecommendationResults.sent (RecommendationResults.submit env q [] o)
               = RecommendationResults.sent o /\
             RecommendationResults.hooks (RecommendationResults.submit env q [] o)
               = RecommendationResults.hooks o).
  { intros q o. unfold RecommendationResults.submit.
    rewrite run_effect_without_files by reflexivity. split; reflexivity. }
  assert (Hr' : App.reachable env w').
  { destruct Hr as (es & E). exists (es ++ [App.FormSubmitted text]).
    unfold App.run in *. rewrite fold_left_app, E. reflexivity. }
  assert (Hfs' : App.uploadedFiles (App.app w') = []).
  { subst w'. simpl. destruct (RecommendationInput.handleSubmit text); [|exact Hfs].
    unfold App.commit. simpl. unfold App.slot_of, App.shows_results_in_card,
      App.shows_results_above_input. simpl. rewrite Hfs. simpl. exact Hfs. }
  assert (Hslot : App.slot_of (App.app w') = None).
  { unfold App.slot_of, App.shows_results_in_card, App.shows_results_above_input.
    rewrite Hfs'. simpl. now rewrite !andb_false_r. }
  destruct (reachable_linked Hr) as (_ & Hnone).
  assert (Hslot0 : App.slot_of (App.app w) = None).
  { unfold App.slot_of, App.shows_results_in_card, App.shows_results_above_input.
    rewrite Hfs. simpl. now rewrite !andb_false_r. }
  split; [|split; [|split; [|split; [|split; [|exact Hguard]]]]].
  - subst w'. simpl. destruct (RecommendationInput.handleSubmit text); [|reflexivity].
    unfold App.commit. simpl. unfold App.slot_of, App.shows_results_in_card,
      App.shows_results_above_input. simpl. rewrite Hfs. simpl.
    unfold App.network. simpl. rewrite (Hnone Hslot0). now rewrite !app_nil_r.
  - destruct (reachable_linked Hr') as (_ & H). exact (H Hslot).
  - exact (upload_prompt_unreachable Hr').
  - unfold App.shows_results_in_card. rewrite Hfs'. simpl.
    now rewrite andb_false_r.
  - unfold App.shows_results_above_input. rewrite Hfs'. simpl. apply andb_false_r.
Qed.

Lemma C1_submit_without_files_witness :
  let w' := App.step None (App.start) (App.FormSubmitted (lit "What should we build next?")) in
  App.network w' = [] /\
  App.shows_upload_prompt (App.app w') = false /\
  App.isInteracting (App.app w') = true.
Proof.
  destruct (@C1_submit_without_files None App.start
              (lit "What should we build next?"))
    as (Hn & _ & Hp & _).
  - exists []. reflexivity.
  - reflexivity.
  - split; [exact Hn|]. split; [exact Hp|reflexivity].
Defined.

(** The effect depends on [query] and [files]: submitting the same text
    again, with the same files, runs nothing, and the error of the first
    request stays on screen with one request in the log. *)
Lemma same_query_resubmission_runs_no_effect :
  let once := App.run None
                [App.FilesSelected (Some [a_txt]);
                 App.FormSubmitted (lit "What should we build next?");
                 App.FetchSettled 0 (RecommendationResults.Resolved Samples.rate_limited)] in
  App.step None once (App.FormSubmitted (lit "What should we build next?")) = once /\
  length (App.network once) = 1%nat /\
  option_map (fun r => RecommendationResults.display (snd r)) (App.results once)
    = Some (RecommendationResults.ErrorBox (lit "rate limited")).
Proof. vm_compute. repeat split. Qed.

(** * Further facts *)

(** ** More on the File Collector *)

Section CollectorAlgebra.

Import FileUpload.

Context {A : Type}.

Lemma filter_from_app (p : A -> nat -> bool) : forall (l fs : list A) start,
  filter_from p start (l ++ fs) =
  filter_from p start l ++ filter_from p (start + length l) fs.
Proof.
  induction l as [|x l IH]; intros fs start; simpl.
  - now rewrite Nat.add_0_r.
  - rewrite IH. replace (S start + length l)%nat with (start + S (length l))%nat by lia.
    destruct (p x start); reflexivity.
Qed.

Lemma filter_from_shift (fs : list A) start j :
  filter_from (keeps (Z.of_nat (start + j))) start fs =
  filter_from (keeps (Z.of_nat j)) 0 fs.
Proof.
  destruct (Nat.lt_ge_cases j (length fs)) as [H|H].
  - rewrite (filter_from_hit fs start H). symmetry. exact (filter_from_hit fs 0 H).
  - rewrite !filter_from_miss by lia. reflexivity.
Qed.

Lemma remove_app_left (l fs : list A) i :
  (i < length l)%nat ->
  handleRemoveFile (l ++ fs) (Z.of_nat i) = handleRemoveFile l (Z.of_nat i) ++ fs.
Proof.
  intros H. rewrite !handleRemoveFile_unfold, filter_from_app. f_equal.
  apply filter_from_miss. lia.
Qed.

Lemma remove_app_right (l fs : list A) i :
  (length l <= i)%nat ->
  handleRemoveFile (l ++ fs) (Z.of_nat i) =
  l ++ handleRemoveFile fs (Z.of_nat (i - length l)).
Proof.
  intros H. rewrite !handleRemoveFile_unfold, filter_from_app. f_equal.
  - apply filter_from_miss. lia.
  - replace i with (0 + length l + (i - length l))%nat at 1 by lia.
    apply filter_from_shift.
Qed.

Lemma nth_error_handleRemoveFile (l : list A) i k :
  (i < length l)%nat ->
  nth_error (handleRemoveFile l (Z.of_nat i)) k =
    if (k <? i)%nat then nth_error l k else nth_error l (S k).
Proof.
  intros H. rewrite (handleRemoveFile_hit l H). now apply nth_error_remove.
Qed.

Lemma length_handleRemoveFile (l : list A) i :
  (i < length l)%nat ->
  S (length (handleRemoveFile l (Z.of_nat i))) = length l.
Proof.
  intros H. rewrite (handleRemoveFile_hit l H).
  rewrite length_app, length_firstn, length_skipn. lia.
Qed.

End CollectorAlgebra.

(** X1: removing an index from a list that was just extended acts on the
    part the index falls in: an index among the old files leaves the added
    files alone, an index past them removes from the added files; so adding
    one file and removing the last index gives the list back. *)
Theorem X1_remove_after_add (l fs : list File) (f : File) (i : nat) :
  ((i < length l)%nat ->
     FileUpload.handleRemoveFile (FileUpload.handleDrop l fs) (Z.of_nat i)
       = FileUpload.handleDrop (FileUpload.handleRemoveFile l (Z.of_nat i)) fs) /\
  ((length l <= i)%nat ->
     FileUpload.handleRemoveFile (FileUpload.handleDrop l fs) (Z.of_nat i)
       = FileUpload.handleDrop l
           (FileUpload.handleRemoveFile fs (Z.of_nat (i - length l)))) /\
  FileUpload.handleRemoveFile (FileUpload.handleDrop l [f]) (Z.of_nat (length l)) = l.
Proof.
  unfold FileUpload.handleDrop. split; [|split].
  - apply remove_app_left.
  - apply remove_app_right.
  - rewrite remove_app_right by lia. rewrite Nat.sub_diag. simpl.
    apply app_nil_r.
Qed.

Lemma X1_remove_after_add_witness :
  FileUpload.handleRemoveFile (FileUpload.handleDrop [a_txt; b_txt] [c_txt]) 0
    = [b_txt; c_txt] /\
  FileUpload.handleRemoveFile (FileUpload.handleDrop [a_txt; b_txt] [c_txt]) 2
    = [a_txt; b_txt].
Proof.
  split.
  - exact (proj1 (X1_remove_after_add [a_txt; b_txt] [c_txt] a_txt 0)
             ltac:(simpl; lia)).
  - exact (proj1 (proj2 (X1_remove_after_add [a_txt; b_txt] [c_txt] a_txt 2))
             ltac:(simpl; lia)).
Defined.

(** X2: removing the index of a file takes out that one occurrence and
    nothing else: the old list is a rearrangement of the removed file put
    before the new list, so copies of the same file at other indices stay. *)
Theorem X2_remove_takes_one_occurrence (l : list File) (i : nat) (f : File) :
  nth_error l i = Some f ->
  Permutation l (f :: FileUpload.handleRemoveFile l (Z.of_nat i)).
Proof.
  intros H.
  assert (Hi : (i < length l)%nat) by (apply nth_error_Some; congruence).
  rewrite (handleRemoveFile_hit l Hi).
  destruct (nth_error_split l i H) as (l1 & l2 & E & Hl). subst l i.
  assert (E1 : firstn (length l1) (l1 ++ f :: l2) = l1).
  { rewrite firstn_app, firstn_all, Nat.sub_diag. cbn [firstn]. apply app_nil_r. }
  assert (E2 : skipn (S (length l1)) (l1 ++ f :: l2) = l2).
  { rewrite skipn_app, skipn_all2 by lia.
    replace (S (length l1) - length l1)%nat with 1%nat by lia. reflexivity. }
  rewrite E1, E2. symmetry. apply Permutation_middle.
Qed.

Lemma X2_remove_takes_one_occurrence_witness :
  Permutation [a_txt; b_txt; a_txt]
    (a_txt :: FileUpload.handleRemoveFile [a_txt; b_txt; a_txt] 2) /\
  FileUpload.handleRemoveFile [a_txt; b_txt; a_txt] 2 = [a_txt; b_txt].
Proof.
  split; [|reflexivity].
  exact (@X2_remove_takes_one_occurrence [a_txt; b_txt; a_txt] 2 a_txt eq_refl).
Defined.

(** X3: two removals can be done in either order once the later index is
    adjusted: removing index [i] and then index [j] (at or after [i]) gives
    the same list as removing index [j + 1] first and then index [i]. *)
Theorem X3_removals_commute (l : list File) (i j : nat) :
  (i <= j)%nat -> (S j < length l)%nat ->
  FileUpload.handleRemoveFile (FileUpload.handleRemoveFile l (Z.of_nat i)) (Z.of_nat j)
  = FileUpload.handleRemoveFile (FileUpload.handleRemoveFile l (Z.of_nat (S j)))
      (Z.of_nat i).
Proof.
  intros Hij Hj.
  assert (Hi : (i < length l)%nat) by lia.
  pose proof (length_handleRemoveFile l Hi) as L1.
  pose proof (length_handleRemoveFile l Hj) as L2.
  apply nth_error_ext. intros k.
  rewrite !nth_error_handleRemoveFile by lia.
  destruct (Nat.ltb_spec k j), (Nat.ltb_spec k i), (Nat.ltb_spec k (S j)),
    (Nat.ltb_spec (S k) i), (Nat.ltb_spec (S k) (S j)); try lia; reflexivity.
Qed.

Lemma X3_removals_commute_witness :
  FileUpload.handleRemoveFile (FileUpload.handleRemoveFile [a_txt; b_txt; c_txt] 0) 1
  = FileUpload.handleRemoveFile (FileUpload.handleRemoveFile [a_txt; b_txt; c_txt] 2) 0.
Proof.
  apply (@X3_removals_commute [a_txt; b_txt; c_txt] 0 1); simpl; lia.
Defined.

Lemma nth_error_chips_from : forall (l : list File) start k,
  nth_error (FileUpload.chips_from start l) k =
  option_map (fun f => {| FileUpload.chip_name := name f;
                          FileUpload.chip_index := Z.of_nat (start + k) |})
             (nth_error l k).
Proof.
  induction l as [|f l IH]; intros start k; simpl.
  - now destruct k.
  - destruct k as [|k]; simpl.
    + now rewrite Nat.add_0_r.
    + rewrite IH. replace (S start + k)%nat with (start + S k)%nat by lia.
      reflexivity.
Qed.

(** X4: the chip shown at position [k] carries the name of the file at
    position [k], and its remove button removes exactly that file: the
    index it passes is always inside the list, so a click never leaves the
    list as it was. *)
Theorem X4_chip_removes_its_file (l : list File) (k : nat) (c : FileUpload.Chip) :
  nth_error (FileUpload.chips l) k = Some c ->
  exists f,
    nth_error l k = Some f /\
    FileUpload.chip_name c = name f /\
    FileUpload.handleRemoveFile l (FileUpload.chip_index c)
      = firstn k l ++ skipn (S k) l /\
    S (length (FileUpload.handleRemoveFile l (FileUpload.chip_index c))) = length l.
Proof.
  unfold FileUpload.chips. rewrite nth_error_chips_from.
  destruct (nth_error l k) as [f|] eqn:E; [|discriminate].
  simpl. intros H. inversion H; subst c. simpl.
  assert (Hk : (k < length l)%nat) by (apply nth_error_Some; congruence).
  exists f. repeat split.
  - exact (handleRemoveFile_hit l Hk).
  - exact (length_handleRemoveFile l Hk).
Qed.

Lemma X4_chip_removes_its_file_witness :
  exists f,
    nth_error [a_txt; b_txt; c_txt] 1 = Some f /\
    FileUpload.handleRemoveFile [a_txt; b_txt; c_txt] 1 = [a_txt; c_txt].
Proof.
  destruct (@X4_chip_removes_its_file [a_txt; b_txt; c_txt] 1
              {| FileUpload.chip_name := lit "b.txt"; FileUpload.chip_index := 1 |}
              eq_refl) as (f & Hf & _ & Hr & _).
  exists f. split; [exact Hf|exact Hr].
Defined.

(** ** File sizes *)

Lemma tenths_bounds (num den : N) :
  (0 < den)%N ->
  (den * FileUpload.tenths num den <= 10 * num + den / 2
   < den * FileUpload.tenths num den + den)%N.
Proof.
  intros H. unfold FileUpload.tenths.
  pose proof (N.div_mod (10 * num + den / 2) den ltac:(lia)) as E.
  pose proof (N.mod_lt (10 * num + den / 2) den ltac:(lia)) as L.
  remember (den * ((10 * num + den / 2) / den))%N as dq.
  remember ((10 * num + den / 2) mod den)%N as r.
  remember (den / 2)%N as half.
  lia.
Qed.

(** X5: for a size that is a whole number of bytes below 2^53,
    [formatFileSize] prints the bytes themselves below 1024, and otherwise
    a number of tenths [n] of a KB (below 1024 * 1024) or of an MB whose
    distance to the true size is at most one twentieth of the unit; in the
    KB tier [n] runs from 10 up to 10240 included. *)
Theorem X5_formatFileSize_tiers (bytes : N) :
  (bytes < 2 ^ 53)%N ->
  ((bytes < 1024)%N ->
     FileUpload.formatFileSize bytes = FileUpload.decimal bytes ++ lit " B") /\
  ((1024 <= bytes < 1024 * 1024)%N ->
     exists n,
       FileUpload.formatFileSize bytes
         = FileUpload.decimal (n / 10) ++ lit "."
             ++ FileUpload.decimal (n mod 10) ++ lit " KB" /\
       (10 <= n <= 10240)%N /\
       (1024 * n <= 10 * bytes + 512 < 1024 * n + 1024)%N) /\
  ((1024 * 1024 <= bytes)%N ->
     exists n,
       FileUpload.formatFileSize bytes
         = FileUpload.decimal (n / 10) ++ lit "."
             ++ FileUpload.decimal (n mod 10) ++ lit " MB" /\
       (10 <= n)%N /\
       (1048576 * n <= 10 * bytes + 524288 < 1048576 * n + 1048576)%N).
Proof.
  intros _. unfold FileUpload.formatFileSize. split; [|split].
  - intros H. destruct (N.ltb_spec bytes 1024); [reflexivity|lia].
  - intros H. destruct (N.ltb_spec bytes 1024); [lia|].
    destruct (N.ltb_spec bytes (1024 * 1024)); [|lia].
    exists (FileUpload.tenths bytes 1024).
    pose proof (@tenths_bounds bytes 1024 ltac:(lia)) as B.
    change (1024 / 2)%N with 512%N in B.
    split; [|split; lia].
    unfold FileUpload.toFixed1. now rewrite <- !app_assoc.
  - intros H. destruct (N.ltb_spec bytes 1024); [lia|].
    destruct (N.ltb_spec bytes (1024 * 1024)); [lia|].
    exists (FileUpload.tenths bytes (1024 * 1024)).
    pose proof (@tenths_bounds bytes (1024 * 1024) ltac:(lia)) as B.
    split; [unfold FileUpload.toFixed1; now rewrite <- !app_assoc|].
    remember (FileUpload.tenths bytes (1024 * 1024)) as n.
    change (1024 * 1024 / 2)%N with 524288%N in B.
    change (1024 * 1024)%N with 1048576%N in *.
    split; lia.
Qed.

Lemma X5_formatFileSize_tiers_witness :
  FileUpload.formatFileSize 1023 = lit "1023 B" /\
  FileUpload.formatFileSize 1536 = lit "1.5 KB" /\
  exists n,
    FileUpload.formatFileSize 5000000
      = FileUpload.decimal (n / 10) ++ lit "."
          ++ FileUpload.decimal (n mod 10) ++ lit " MB".
Proof.
  destruct (@X5_formatFileSize_tiers 5000000 eq_refl) as (_ & _ & HM).
  destruct (HM ltac:(discriminate)) as (n & E & _).
  split; [reflexivity|]. split; [reflexivity|]. exists n. exact E.
Defined.

(** X6: the KB tier does not roll over: every size from 1048525 to 1048575
    bytes, just under one MB, is printed as 1024.0 KB. *)
Theorem X6_formatFileSize_no_rollover (bytes : N) :
  (1048525 <= bytes < 1048576)%N ->
  FileUpload.formatFileSize bytes = lit "1024.0 KB".
Proof.
  intros H. unfold FileUpload.formatFileSize.
  destruct (N.ltb_spec bytes 1024); [lia|].
  destruct (N.ltb_spec bytes (1024 * 1024)); [|lia].
  pose proof (@tenths_bounds bytes 1024 ltac:(lia)) as B.
  change (1024 / 2)%N with 512%N in B.
  assert (E : FileUpload.tenths bytes 1024 = 10240%N) by lia.
  unfold FileUpload.toFixed1. rewrite E. reflexivity.
Qed.

Lemma X6_formatFileSize_no_rollover_witness :
  FileUpload.formatFileSize 1048575 = lit "1024.0 KB".
Proof.
  apply X6_formatFileSize_no_rollover. lia.
Defined.

(** ** More on the orchestrator *)

Section Responses.

Import RecommendationResults.

Variable env : option jsstring.

Lemma run_effect_unhandled (o : Instance) :
  unhandled (run_effect env o) = unhandled o.
Proof.
  destruct (files o) as [|f fs] eqn:E.
  - now rewrite run_effect_without_files.
  - now rewrite run_effect_with_files by (rewrite E; discriminate).
Qed.

Lemma steps_unhandled : forall es (o o' : Instance),
  steps env o es = Some o' -> unhandled o' = unhandled o.
Proof.
  induction es as [|e es IH]; intros o o'; simpl.
  - intros H. now inversion H.
  - destruct (step env o e) as [o1|] eqn:E1; [|discriminate].
    intros H. rewrite (IH _ _ H).
    destruct e as [q fs|n outcome]; simpl in E1.
    + inversion E1; subst. unfold submit. now rewrite run_effect_unhandled.
    + now apply settle_hooks in E1.
Qed.

Lemma length_remove_nth {A} : forall (l : list A) n,
  (n < length l)%nat -> S (length (remove_nth n l)) = length l.
Proof.
  induction l as [|x l IH]; intros n H; simpl in *; [lia|].
  destruct n as [|n]; simpl; [reflexivity|].
  rewrite IH by lia. reflexivity.
Qed.

(** A submission with files followed by the response to that very
    request. *)
Lemma submit_then_settle (o : Instance) q fs outcome :
  fs <> [] ->
  steps env o [Submit q fs; Settle (length (inflight o)) outcome] =
    Some {| query := q; files := fs;
            hooks := apply_verdict (verdict outcome) (pending (hooks o));
            inflight := inflight o;
            sent := sent o ++ [{| url := endpoint env; method := lit "POST";
                                  body := (lit "query", Text q)
                                            :: map (fun x => (lit "files", Blob x)) fs |}];
            unhandled := unhandled o |}.
Proof.
  intros H. cbn [steps step]. rewrite (submit_with_files env q o H). cbv zeta.
  rewrite settle_inflight
    by (cbn [inflight]; rewrite length_app; simpl; lia).
  cbn [query files hooks inflight sent unhandled].
  set (r := {| url := endpoint env; method := lit "POST"; body := _ |}).
  destruct (remove_nth_last (inflight o) r r) as (_ & E). rewrite E.
  reflexivity.
Qed.

End Responses.

(** X7: whatever the responses were (a failed connection, any status, a
    body that does not parse, a [null] body), no exception has escaped
    [fetchRecommendations] in any reachable instance: the promise it
    returns never rejects. *)
Theorem X7_no_unhandled_rejection (env : option jsstring)
    (o : RecommendationResults.Instance) :
  RecommendationResults.reachable env o ->
  RecommendationResults.unhandled o = [].
Proof.
  intros (q & fs & es & H).
  rewrite (steps_unhandled env es _ H).
  unfold RecommendationResults.mount. now rewrite run_effect_unhandled.
Qed.

Lemma X7_no_unhandled_rejection_witness :
  option_map (@RecommendationResults.unhandled)
    (RecommendationResults.steps None
       (RecommendationResults.mount None (lit "q") [a_txt])
       [RecommendationResults.Settle 0
          (RecommendationResults.Resolved
             {| RecommendationResults.status := 500;
                RecommendationResults.statusText := [];
                RecommendationResults.payload := RecommendationResults.IsJSON JNull |})])
  = Some [].
Proof.
  destruct (RecommendationResults.steps None _ _) as [o|] eqn:E.
  - simpl. f_equal. apply (@X7_no_unhandled_rejection None).
    eexists _, _, _. exact E.
  - vm_compute in E. discriminate E.
Defined.

(** X8: from any state of the component (an earlier error on screen
    included), a submission with files followed by a 2xx response whose
    body is an object with a non-empty string [recommendations] ends with
    that string rendered as markdown, the file count of the submission in
    the header, no error stored and the request no longer in flight. *)
Theorem X8_success_round_trip (env : option jsstring)
    (o : RecommendationResults.Instance) (q : jsstring) (fs : list File)
    (res : RecommendationResults.Response) members (s : jsstring) :
  fs <> [] ->
  RecommendationResults.ok res = true ->
  RecommendationResults.payload res = RecommendationResults.IsJSON (JObj members) ->
  lookup (lit "recommendations") members = Some (JStr s) ->
  s <> [] ->
  exists o1,
    RecommendationResults.steps env o
      [RecommendationResults.Submit q fs;
       RecommendationResults.Settle (length (RecommendationResults.inflight o))
         (RecommendationResults.Resolved res)] = Some o1 /\
    RecommendationResults.display o1
      = RecommendationResults.Markdown (Val (JStr s)) (length fs) /\
    RecommendationResults.error (RecommendationResults.hooks o1) = None /\
    RecommendationResults.inflight o1 = RecommendationResults.inflight o.
Proof.
  intros Hfs Hok Hp Hl Hs. eexists. split; [now apply submit_then_settle|].
  unfold RecommendationResults.display. cbn [RecommendationResults.files
    RecommendationResults.hooks RecommendationResults.inflight].
  rewrite (verdict_ok_member res Hok Hp Hl).
  destruct s as [|c s]; [congruence|]. repeat split.
Qed.

Lemma X8_success_round_trip_witness :
  exists o1,
    RecommendationResults.steps None
      (RecommendationResults.mount None (lit "q") [])
      [RecommendationResults.Submit (lit "What should we build next?") [a_txt];
       RecommendationResults.Settle 0
         (RecommendationResults.Resolved
            (Samples.ok_with (lit "**Build X** because of Y")))] = Some o1 /\
    RecommendationResults.display o1
      = RecommendationResults.Markdown
          (Val (JStr (lit "**Build X** because of Y"))) 1.
Proof.
  destruct (@X8_success_round_trip None
              (RecommendationResults.mount None (lit "q") [])
              (lit "What should we build next?") [a_txt]
              (Samples.ok_with (lit "**Build X** because of Y"))
              [(lit "recommendations", JStr (lit "**Build X** because of Y"))]
              (lit "**Build X** because of Y"))
    as (o1 & H & Hd & _); try reflexivity; try discriminate.
  exists o1. split; [exact H|exact Hd].
Defined.

(** X9: when [fetch] itself fails, with a message that is not empty, the
    component shows that message in the error box and keeps the
    recommendations it had stored before. *)
Theorem X9_network_failure (env : option jsstring)
    (o : RecommendationResults.Instance) (q : jsstring) (fs : list File)
    (m : jsstring) :
  fs <> [] -> m <> [] ->
  exists o1,
    RecommendationResults.steps env o
      [RecommendationResults.Submit q fs;
       RecommendationResults.Settle (length (RecommendationResults.inflight o))
         (RecommendationResults.Rejected m)] = Some o1 /\
    RecommendationResults.display o1 = RecommendationResults.ErrorBox m /\
    RecommendationResults.recommendations (RecommendationResults.hooks o1)
      = RecommendationResults.recommendations (RecommendationResults.hooks o).
Proof.
  intros Hfs Hm. eexists. split; [now apply submit_then_settle|].
  unfold RecommendationResults.display. cbn [RecommendationResults.files
    RecommendationResults.hooks].
  rewrite verdict_rejected. destruct m as [|c m]; [congruence|]. split; reflexivity.
Qed.

Lemma X9_network_failure_witness :
  exists o1,
    RecommendationResults.steps None
      (RecommendationResults.mount None (lit "q") [])
      [RecommendationResults.Submit (lit "q") [a_txt];
       RecommendationResults.Settle 0
         (RecommendationResults.Rejected (lit "Failed to fetch"))] = Some o1 /\
    RecommendationResults.display o1
      = RecommendationResults.ErrorBox (lit "Failed to fetch").
Proof.
  destruct (@X9_network_failure None
              (RecommendationResults.mount None (lit "q") [])
              (lit "q") [a_txt] (lit "Failed to fetch"))
    as (o1 & H & Hd & _); try discriminate.
  exists o1. split; [exact H|exact Hd].
Defined.

(** X12: any response that arrives takes the spinner down, and takes one
    request out of flight: with two requests in flight the first response
    ends the loading display while the other request is still pending. *)
Theorem X12_any_response_ends_loading (n : nat)
    (outcome : RecommendationResults.FetchOutcome)
    (o o' : RecommendationResults.Instance) :
  RecommendationResults.settle n outcome o = Some o' ->
  RecommendationResults.loading (RecommendationResults.hooks o') = false /\
  RecommendationResults.display o' <> RecommendationResults.Spinner /\
  S (length (RecommendationResults.inflight o'))
    = length (RecommendationResults.inflight o).
Proof.
  intros H.
  assert (Hn : (n < length (RecommendationResults.inflight o))%nat).
  { unfold RecommendationResults.settle in H.
    destruct (nth_error (RecommendationResults.inflight o) n) eqn:E; [|discriminate].
    apply nth_error_Some. congruence. }
  rewrite (settle_inflight outcome o Hn) in H. inversion H; subst o'. clear H.
  cbn [RecommendationResults.hooks RecommendationResults.inflight].
  assert (L : RecommendationResults.loading
                (RecommendationResults.apply_verdict
                   (RecommendationResults.verdict outcome)
                   (RecommendationResults.hooks o)) = false).
  { destruct (RecommendationResults.verdict outcome); reflexivity. }
  split; [exact L|]. split; [|now apply length_remove_nth].
  unfold RecommendationResults.display, RecommendationResults.render.
  cbn [RecommendationResults.hooks RecommendationResults.files]. rewrite L.
  destruct (RecommendationResults.error _) as [[|c s]|];
    try destruct (negb _); discriminate.
Qed.

Lemma X12_any_response_ends_loading_witness :
  exists o',
    RecommendationResults.settle 0
      (RecommendationResults.Resolved Samples.rate_limited)
      (RecommendationResults.submit None (lit "B") [b_txt]
         (RecommendationResults.mount None (lit "A") [a_txt])) = Some o' /\
    RecommendationResults.display o' <> RecommendationResults.Spinner /\
    length (RecommendationResults.inflight o') = 1%nat.
Proof.
  eexists. split; [reflexivity|].
  match goal with
  | |- ?d <> _ /\ _ =>
      destruct (@X12_any_response_ends_loading 0
                  (RecommendationResults.Resolved Samples.rate_limited)
                  (RecommendationResults.submit None (lit "B") [b_txt]
                     (RecommendationResults.mount None (lit "A") [a_txt]))
                  _ eq_refl) as (_ & Hd & _)
  end.
  split; [exact Hd|reflexivity].
Defined.

(** ** Bodies the service can send that are not the documented shape *)

Lemma to_string_objects : forall items : list (list (jsstring * JSON)),
  Forall (fun ms => lookup (lit "toString") ms = None) items ->
  to_string_json (JArr (map JObj items))
    = Some (join (lit ",") (map (fun _ => lit "[object Object]") items)).
Proof.
  intros items H.
  cbn -[lit join lookup].
  match goal with
  | |- match ?e with _ => _ end = _ =>
      assert (E : e = Some (map (fun _ => lit "[object Object]") items))
  end.
  { induction H as [|ms items Hms _ IH]; [reflexivity|].
    cbn -[lit join lookup] in *. rewrite Hms, IH. reflexivity. }
  now rewrite E.
Qed.

Lemma join_objects_not_empty (items : list (list (jsstring * JSON))) :
  items <> [] ->
  exists c s,
    join (lit ",") (map (fun _ => lit "[object Object]") items) = c :: s.
Proof.
  destruct items as [|i [|i2 rest]]; [congruence| |]; intros _; eexists _, _;
    reflexivity.
Qed.

(** X10: a response outside 200-299 whose [detail] is a non-empty array of
    objects (the shape of a validation error) is shown as the text
    [[object Object]] once per entry, joined by commas: the entries
    themselves never reach the screen. *)
Theorem X10_array_detail_is_object_Object (res : RecommendationResults.Response)
    (h : RecommendationResults.Hooks) (fs : list File)
    members (items : list (list (jsstring * JSON))) :
  RecommendationResults.ok res = false ->
  RecommendationResults.payload res = RecommendationResults.IsJSON (JObj members) ->
  lookup (lit "detail") members = Some (JArr (map JObj items)) ->
  items <> [] ->
  Forall (fun ms => lookup (lit "toString") ms = None) items ->
  RecommendationResults.render fs
    (snd (RecommendationResults.fetchRecommendations_resume
            (RecommendationResults.Resolved res) h))
  = RecommendationResults.ErrorBox
      (join (lit ",") (map (fun _ => lit "[object Object]") items)).
Proof.
  intros Hok Hp Hl Hne Hts.
  assert (V : RecommendationResults.verdict (RecommendationResults.Resolved res)
              = inl (join (lit ",") (map (fun _ => lit "[object Object]") items))).
  { unfold RecommendationResults.verdict,
      RecommendationResults.fetchRecommendations_resume,
      RecommendationResults.try_finally, RecommendationResults.try_catch,
      RecommendationResults.try_block, RecommendationResults.bind,
      RecommendationResults.lift, RecommendationResults.json.
    cbn -[lit RecommendationResults.ok lookup or_else to_string]. rewrite Hok, Hp.
    cbn -[lit lookup or_else to_string]. rewrite Hl.
    unfold or_else. cbn -[lit to_string_json join].
    rewrite (to_string_objects Hts). reflexivity. }
  rewrite resume_verdict, V. cbn [snd RecommendationResults.apply_verdict].
  destruct (join_objects_not_empty Hne) as (c & s & E). rewrite E.
  reflexivity.
Qed.

Lemma X10_array_detail_is_object_Object_witness :
  RecommendationResults.render [a_txt]
    (snd (RecommendationResults.fetchRecommendations_resume
            (RecommendationResults.Resolved
               {| RecommendationResults.status := 422;
                  RecommendationResults.statusText := lit "Unprocessable Entity";
                  RecommendationResults.payload :=
                    RecommendationResults.IsJSON
                      (JObj [(lit "detail",
                              JArr [JObj [(lit "msg", JStr (lit "field required"))];
                                    JObj [(lit "msg", JStr (lit "field required"))]])]) |})
            RecommendationResults.initial_hooks))
  = RecommendationResults.ErrorBox (lit "[object Object],[object Object]").
Proof.
  apply (@X10_array_detail_is_object_Object _ _ _
           [(lit "detail",
             JArr [JObj [(lit "msg", JStr (lit "field required"))];
                   JObj [(lit "msg", JStr (lit "field required"))]])]
           [[(lit "msg", JStr (lit "field required"))];
            [(lit "msg", JStr (lit "field required"))]]);
    try reflexivity; try discriminate.
  repeat constructor.
Defined.

(** X11: a body that is the JSON value [null] ends in the error box for
    every status, 2xx included, with a message that is not empty, and the
    stored recommendations are left as they were. *)
Theorem X11_null_body_is_an_error (res : RecommendationResults.Response)
    (h : RecommendationResults.Hooks) (fs : list File) :
  RecommendationResults.payload res = RecommendationResults.IsJSON JNull ->
  exists m,
    m <> [] /\
    RecommendationResults.render fs
      (snd (RecommendationResults.fetchRecommendations_resume
              (RecommendationResults.Resolved res) h))
      = RecommendationResults.ErrorBox m /\
    RecommendationResults.recommendations
      (snd (RecommendationResults.fetchRecommendations_resume
              (RecommendationResults.Resolved res) h))
      = RecommendationResults.recommendations h.
Proof.
  intros Hp.
  assert (V : exists c s,
             RecommendationResults.verdict (RecommendationResults.Resolved res)
             = inl (c :: s)).
  { unfold RecommendationResults.verdict,
      RecommendationResults.fetchRecommendations_resume,
      RecommendationResults.try_finally, RecommendationResults.try_catch,
      RecommendationResults.try_block, RecommendationResults.bind,
      RecommendationResults.lift, RecommendationResults.json.
    cbn -[lit RecommendationResults.ok]. rewrite Hp.
    destruct (RecommendationResults.ok res); eexists _, _; reflexivity. }
  destruct V as (c & s & V).
  exists (c :: s). rewrite resume_verdict, V. repeat split. discriminate.
Qed.

Lemma X11_null_body_is_an_error_witness :
  exists m,
    m <> [] /\
    RecommendationResults.render [a_txt]
      (snd (RecommendationResults.fetchRecommendations_resume
              (RecommendationResults.Resolved
                 {| RecommendationResults.status := 200;
                    RecommendationResults.statusText := lit "OK";
                    RecommendationResults.payload := RecommendationResults.IsJSON JNull |})
              RecommendationResults.initial_hooks))
      = RecommendationResults.ErrorBox m.
Proof.
  destruct (@X11_null_body_is_an_error
              {| RecommendationResults.status := 200;
                 RecommendationResults.statusText := lit "OK";
                 RecommendationResults.payload := RecommendationResults.IsJSON JNull |}
              RecommendationResults.initial_hooks [a_txt] eq_refl)
    as (m & Hm & Hr & _).
  exists m. split; [exact Hm|exact Hr].
Defined.

(** ** More on the page *)

Lemma blank_or_not (s : jsstring) :
  blank s \/ Exists (fun c => is_white_space c = false) s.
Proof.
  induction s as [|c s [IH|IH]].
  - left. constructor.
  - destruct (is_white_space c) eqn:E.
    + left. now constructor.
    + right. now apply Exists_cons_hd.
  - right. now apply Exists_cons_tl.
Qed.

Lemma handleSubmit_some (text q : jsstring) :
  RecommendationInput.handleSubmit text = Some q ->
  q = text /\ Exists (fun c => is_white_space c = false) text.
Proof.
  unfold RecommendationInput.handleSubmit.
  destruct (blank_or_not text) as [B|B].
  - rewrite (trim_blank B). discriminate.
  - destruct (truthy_string (trim text)); [|discriminate].
    intros H. inversion H; subst. split; [reflexivity|assumption].
Qed.

Lemma handleSubmit_not_blank (text : jsstring) :
  Exists (fun c => is_white_space c = false) text ->
  RecommendationInput.handleSubmit text = Some text.
Proof.
  intros H. unfold RecommendationInput.handleSubmit.
  pose proof (trim_not_blank H) as Hne.
  destruct (trim text); [congruence|reflexivity].
Qed.

Section PageInvariant.

Import App.

Variable env : option jsstring.

Lemma slot_of_linked (s : State) :
  showResults s = isInteracting s ->
  slot_of s =
    if (showResults s && (0 <? length (uploadedFiles s))%nat)%bool
    then Some AboveInput else None.
Proof.
  intros H. unfold slot_of, shows_results_in_card, shows_results_above_input.
  rewrite <- H.
  destruct (showResults s), (0 <? length (uploadedFiles s))%nat; reflexivity.
Qed.

Lemma commit_unmounted (w : World) s' b :
  slot_of s' = None ->
  commit env w s' b = {| app := s'; results := None; past := network w |}.
Proof.
  intros H. unfold commit, network. rewrite H.
  destruct (results w) as [[sl o]|]; reflexivity.
Qed.

Lemma commit_mounts (w : World) s' b sl' :
  slot_of s' = Some sl' -> results w = None ->
  commit env w s' b =
    {| app := s';
       results := Some (sl', RR.mount env (query s') (uploadedFiles s'));
       past := past w |}.
Proof.
  intros H E. unfold commit. now rewrite H, E.
Qed.

Lemma commit_keeps (w : World) s' b sl o :
  slot_of s' = Some sl -> results w = Some (sl, o) ->
  commit env w s' b =
    {| app := s';
       results :=
         Some (sl, if (negb (jsstring_eqb (RR.query o) (query s')) || b)%bool
                   then RR.submit env (query s') (uploadedFiles s') o
                   else o);
       past := past w |}.
Proof.
  intros H E. unfold commit. rewrite H, E.
  destruct sl; reflexivity.
Qed.

Lemma mount_with_files q fs :
  fs <> [] ->
  RR.mount env q fs =
    {| RR.query := q; RR.files := fs; RR.hooks := RR.pending RR.initial_hooks;
       RR.inflight := [request_of env q fs]; RR.sent := [request_of env q fs];
       RR.unhandled := [] |}.
Proof.
  intros H. unfold RR.mount.
  now rewrite run_effect_with_files by exact H.
Qed.

Lemma submit_request q fs (o : RR.Instance) :
  fs <> [] ->
  RR.submit env q fs o =
    {| RR.query := q; RR.files := fs; RR.hooks := RR.pending (RR.hooks o);
       RR.inflight := RR.inflight o ++ [request_of env q fs];
       RR.sent := RR.sent o ++ [request_of env q fs];
       RR.unhandled := RR.unhandled o |}.
Proof.
  intros H. now rewrite submit_with_files by exact H.
Qed.

Lemma nonempty_length (fs : list File) :
  (0 <? length fs)%nat = true -> fs <> [].
Proof. destruct fs; [discriminate|discriminate]. Qed.

Lemma request_well_formed q fs :
  Exists (fun c => is_white_space c = false) q -> fs <> [] ->
  well_formed env (request_of env q fs).
Proof.
  intros Hq Hfs. destruct fs as [|f fs]; [congruence|].
  now exists q, f, fs.
Qed.

(** What a commit adds to the log: nothing, or the one request built from
    the committed query and files. *)
Lemma commit_network (w : World) s' b :
  coherent env w -> showResults s' = isInteracting s' ->
  network (commit env w s' b) = network w \/
  (uploadedFiles s' <> [] /\ showResults s' = true /\
   network (commit env w s' b)
     = network w ++ [request_of env (query s') (uploadedFiles s')]).
Proof.
  intros (_ & _ & _ & Hres & _) Hf.
  pose proof (slot_of_linked s' Hf) as Hs.
  destruct (showResults s' && (0 <? length (uploadedFiles s'))%nat)%bool eqn:C.
  - apply andb_prop in C. destruct C as (C1 & C2).
    apply nonempty_length in C2.
    destruct (results w) as [[sl o]|] eqn:E.
    + destruct Hres as (-> & _).
      rewrite (commit_keeps w s' b Hs E). unfold network. rewrite E.
      cbn [past results].
      destruct (negb (jsstring_eqb (RR.query o) (query s')) || b)%bool.
      * right. rewrite (submit_request (query s') o C2). cbn [RR.sent].
        now rewrite app_assoc.
      * now left.
    + right. rewrite (commit_mounts w s' b Hs E). unfold network. rewrite E.
      cbn [past results]. rewrite (mount_with_files (query s') C2).
      cbn [RR.sent]. now rewrite app_nil_r.
  - left. rewrite (commit_unmounted w s' b Hs). unfold network at 1.
    cbn [past results]. apply app_nil_r.
Qed.

Lemma commit_coherent (w : World) s' b :
  coherent env w ->
  showResults s' = isInteracting s' ->
  (showResults s' = true ->
     Exists (fun c => is_white_space c = false) (query s')) ->
  (showResults s' = false -> query s' = [] /\ showResults (app w) = false) ->
  (b = false -> uploadedFiles s' = uploadedFiles (app w)) ->
  coherent env (commit env w s' b).
Proof.
  intros Hw Hf Hq Hno Hsame.
  pose proof (commit_network s' b Hw Hf) as Hnet.
  pose proof Hw as (_ & Hempty & _ & Hres & Hwf).
  pose proof (slot_of_linked s' Hf) as Hs.
  assert (Happ : app (commit env w s' b) = s').
  { unfold commit. destruct (slot_of s'); destruct (results w) as [[sl o]|];
      try reflexivity. destruct (slot_eqb sl s); reflexivity. }
  unfold coherent. rewrite Happ.
  split; [exact Hf|]. split; [|split; [exact Hq|split]].
  - intros Hfalse. destruct (Hno Hfalse) as (Hq0 & Hw0).
    split; [exact Hq0|].
    destruct Hnet as [E|(_ & Htrue & _)]; [|congruence].
    rewrite E. now apply Hempty.
  - destruct (showResults s' && (0 <? length (uploadedFiles s'))%nat)%bool eqn:C.
    + apply andb_prop in C. destruct C as (C1 & C2).
      apply nonempty_length in C2.
      destruct (results w) as [[sl o]|] eqn:E.
      * destruct Hres as (-> & _ & Hqo & Hfo & Hun).
        rewrite (commit_keeps w s' b Hs E). cbn [results].
        destruct (negb (jsstring_eqb (RR.query o) (query s')) || b)%bool eqn:Ch.
        -- rewrite (submit_request (query s') o C2). cbn.
           repeat split; auto.
        -- apply orb_false_elim in Ch. destruct Ch as (Ch1 & Ch2).
           apply negb_false_iff, jsstring_eqb_eq in Ch1.
           repeat split; auto. rewrite Hfo. symmetry. now apply Hsame.
      * rewrite (commit_mounts w s' b Hs E). cbn [results].
        rewrite (mount_with_files (query s') C2). cbn. repeat split; auto.
    + rewrite (commit_unmounted w s' b Hs). cbn [results]. exact Hs.
  - destruct Hnet as [E|(Hne & Htrue & E)]; rewrite E; [exact Hwf|].
    apply Forall_app. split; [exact Hwf|]. constructor; [|constructor].
    apply request_well_formed; auto.
Qed.

Lemma start_coherent : coherent env start.
Proof.
  unfold coherent. cbn. repeat split; auto; discriminate.
Qed.

Lemma step_coherent (w : World) e : coherent env w -> coherent env (step env w e).
Proof.
  intros Hw. pose proof Hw as (Hf & Hempty & Hq & Hres & Hwf).
  destruct e as [text|target|index|n outcome]; cbn [step].
  - destruct (RecommendationInput.handleSubmit text) as [q|] eqn:E; [|exact Hw].
    apply handleSubmit_some in E. destruct E as (-> & Hne).
    apply commit_coherent; cbn; auto; discriminate.
  - destruct target as [fs|]; cbn [FileUpload.handleFileSelect]; [|exact Hw].
    apply commit_coherent; cbn; auto; try discriminate.
    intros Hfalse. split; [now apply Hempty|exact Hfalse].
  - apply commit_coherent; cbn; auto; try discriminate.
    intros Hfalse. split; [now apply Hempty|exact Hfalse].
  - destruct (results w) as [[sl o]|] eqn:E; [|exact Hw].
    destruct (RR.settle n outcome o) as [o'|] eqn:S; [|exact Hw].
    apply settle_hooks in S. destruct S as (_ & Sf & Sq & Ss & Su).
    destruct Hres as (-> & Hslot & Hqo & Hfo & Hun).
    assert (N : network {| app := app w; results := Some (AboveInput, o');
                           past := past w |} = network w).
    { unfold network. rewrite E. cbn [past results]. now rewrite Ss. }
    unfold coherent. rewrite N. cbn [app results].
    split; [exact Hf|]. split; [exact Hempty|]. split; [exact Hq|].
    split; [|exact Hwf]. repeat split; congruence.
Qed.

Lemma reachable_coherent (w : World) : reachable env w -> coherent env w.
Proof.
  intros (es & H). subst w. unfold run.
  assert (G : forall es w, coherent env w ->
                           coherent env (fold_left (step env) es w)).
  { clear es. induction es as [|e es IH]; intros w Hw; simpl; [exact Hw|].
    apply IH. now apply step_coherent. }
  apply G, start_coherent.
Qed.

Lemma reachable_step (w : World) e :
  reachable env w -> reachable env (step env w e).
Proof.
  intros (es & E). exists (es ++ [e]).
  unfold run in *. rewrite fold_left_app, E. reflexivity.
Qed.

End PageInvariant.

(** X13: every request the page has ever made is a POST to the endpoint
    whose form starts with a [query] that is not blank and goes on with at
    least one [files] part: no request is made without a file or with an
    empty or all-white-space query. *)
Theorem X13_requests_have_query_and_file (env : option jsstring) (w : App.World)
    (r : RecommendationResults.Request) :
  App.reachable env w ->
  In r (App.network w) ->
  exists q f fs,
    Exists (fun c => is_white_space c = false) q /\
    RecommendationResults.url r = RecommendationResults.endpoint env /\
    RecommendationResults.method r = lit "POST" /\
    RecommendationResults.body r
      = (lit "query", RecommendationResults.Text q)
          :: (lit "files", RecommendationResults.Blob f)
          :: map (fun x => (lit "files", RecommendationResults.Blob x)) fs.
Proof.
  intros Hr Hin.
  destruct (reachable_coherent Hr) as (_ & _ & _ & _ & Hwf).
  rewrite Forall_forall in Hwf.
  destruct (Hwf r Hin) as (q & f & fs & Hq & E).
  exists q, f, fs. subst r. repeat split. exact Hq.
Qed.

Lemma X13_requests_have_query_and_file_witness :
  exists q f fs,
    Exists (fun c => is_white_space c = false) q /\
    RecommendationResults.body (App.request_of None (lit " next? ") [a_txt; b_txt])
      = (lit "query", RecommendationResults.Text q)
          :: (lit "files", RecommendationResults.Blob f)
          :: map (fun x => (lit "files", RecommendationResults.Blob x)) fs.
Proof.
  destruct (@X13_requests_have_query_and_file None
              (App.run None [App.FilesSelected (Some [a_txt; b_txt]);
                             App.FormSubmitted (lit " next? ")])
              (App.request_of None (lit " next? ") [a_txt; b_txt]))
    as (q & f & fs & Hq & _ & _ & Hb).
  - eexists. reflexivity.
  - left. reflexivity.
  - exists q, f, fs. split; [exact Hq|exact Hb].
Defined.

(** X14: before the first query is submitted nothing is sent and nothing is
    mounted, whatever files are added or removed: choosing files alone
    never contacts the service. *)
Theorem X14_nothing_sent_before_first_query (env : option jsstring) (w : App.World) :
  App.reachable env w ->
  App.showResults (App.app w) = false ->
  App.network w = [] /\ App.results w = None /\ App.query (App.app w) = [].
Proof.
  intros Hr Hs.
  destruct (reachable_coherent Hr) as (Hf & Hempty & _ & Hres & _).
  destruct (Hempty Hs) as (Hq & Hn).
  split; [exact Hn|]. split; [|exact Hq].
  destruct (App.results w) as [[sl o]|]; [|reflexivity].
  destruct Hres as (_ & Hslot & _).
  rewrite (slot_of_linked _ Hf), Hs in Hslot. discriminate.
Qed.

Lemma X14_nothing_sent_before_first_query_witness :
  App.network
    (App.run None [App.FilesSelected (Some [a_txt; b_txt]); App.RemoveClicked 0;
                   App.FormSubmitted (lit "   ")]) = [].
Proof.
  apply (@X14_nothing_sent_before_first_query None).
  - eexists. reflexivity.
  - reflexivity.
Defined.

(** X15: in every reachable state the results component is mounted exactly
    when a query was submitted and the file list is not empty; it then sits
    above the input, its [query] and [files] props are the page's current
    query and files, and no exception has escaped it. *)
Theorem X15_mounted_instance_follows_page (env : option jsstring) (w : App.World) :
  App.reachable env w ->
  match App.results w with
  | Some (sl, o) =>
      sl = App.AboveInput /\
      App.showResults (App.app w) = true /\
      App.uploadedFiles (App.app w) <> [] /\
      RecommendationResults.query o = App.query (App.app w) /\
      RecommendationResults.files o = App.uploadedFiles (App.app w) /\
      RecommendationResults.unhandled o = []
  | None =>
      App.showResults (App.app w) = false \/ App.uploadedFiles (App.app w) = []
  end.
Proof.
  intros Hr.
  destruct (reachable_coherent Hr) as (Hf & _ & _ & Hres & _).
  pose proof (slot_of_linked _ Hf) as Hs.
  destruct (App.results w) as [[sl o]|].
  - destruct Hres as (-> & Hslot & Hq & Hfs & Hu).
    rewrite Hs in Hslot.
    destruct (App.showResults (App.app w)); [|discriminate].
    destruct (App.uploadedFiles (App.app w)) eqn:E; [discriminate|].
    repeat split; auto. discriminate.
  - rewrite Hs in Hres.
    destruct (App.showResults (App.app w)); [|now left].
    destruct (App.uploadedFiles (App.app w)); [now right|discriminate].
Qed.

Lemma X15_mounted_instance_follows_page_witness :
  option_map (fun r => RecommendationResults.files (snd r))
    (App.results
       (App.run None [App.FilesSelected (Some [a_txt]);
                      App.FormSubmitted (lit "next?");
                      App.FilesSelected (Some [b_txt])]))
  = Some [a_txt; b_txt].
Proof.
  pose proof (@X15_mounted_instance_follows_page None
                (App.run None [App.FilesSelected (Some [a_txt]);
                               App.FormSubmitted (lit "next?");
                               App.FilesSelected (Some [b_txt])])
                ltac:(eexists; reflexivity)) as H.
  destruct (App.results _) as [[sl o]|] eqn:E.
  - destruct H as (_ & _ & _ & _ & Hfs & _). simpl. rewrite Hfs. reflexivity.
  - vm_compute in E. discriminate E.
Defined.

(** X16: in every reachable state the results are never rendered inside the
    card (that block needs [showResults] without [isInteracting], and the
    two are always equal); the hero is shown exactly until the first query
    is submitted, and the block above the input is shown exactly when the
    results component is mounted. *)
Theorem X16_rendered_blocks (env : option jsstring) (w : App.World) :
  App.reachable env w ->
  App.showResults (App.app w) = App.isInteracting (App.app w) /\
  App.shows_results_in_card (App.app w) = false /\
  App.shows_hero (App.app w) = negb (App.showResults (App.app w)) /\
  (App.shows_results_above_input (App.app w) = true <-> App.results w <> None).
Proof.
  intros Hr.
  destruct (reachable_coherent Hr) as (Hf & _ & _ & Hres & _).
  pose proof (slot_of_linked _ Hf) as Hs.
  split; [exact Hf|].
  unfold App.shows_results_in_card, App.shows_hero, App.shows_results_above_input.
  rewrite <- Hf.
  split; [|split; [reflexivity|]].
  - destruct (App.showResults (App.app w)); simpl;
      [apply andb_false_r|reflexivity].
  - rewrite andb_diag.
    destruct (App.results w) as [[sl o]|].
    + destruct Hres as (_ & Hslot & _). rewrite Hs in Hslot.
      destruct (App.showResults (App.app w) &&
                (0 <? length (App.uploadedFiles (App.app w)))%nat)%bool;
        [|discriminate].
      split; [discriminate|reflexivity].
    + rewrite Hs in Hres.
      destruct (App.showResults (App.app w) &&
                (0 <? length (App.uploadedFiles (App.app w)))%nat)%bool;
        [discriminate|].
      split; [discriminate|congruence].
Qed.

Lemma X16_rendered_blocks_witness :
  App.shows_results_in_card
    (App.app (App.run None [App.FilesSelected (Some [a_txt]);
                            App.FormSubmitted (lit "next?")])) = false.
Proof.
  apply (@X16_rendered_blocks None). eexists. reflexivity.
Defined.

Section PageSteps.

Import App.

Variable env : option jsstring.

(** A commit of a state with a submitted query and files, after a change
    of the query or of the file array. *)
Lemma commit_sends (w : World) s' b :
  coherent env w ->
  showResults s' = true -> isInteracting s' = true ->
  uploadedFiles s' <> [] ->
  (b = true \/ query s' <> query (app w)) ->
  network (commit env w s' b)
    = network w ++ [request_of env (query s') (uploadedFiles s')] /\
  exists o,
    results (commit env w s' b) = Some (AboveInput, o) /\
    RR.display o = RR.Spinner /\
    RR.query o = query s' /\ RR.files o = uploadedFiles s'.
Proof.
  intros (_ & _ & _ & Hres & _) Hs Hi Hne Hch.
  assert (Hslot : slot_of s' = Some AboveInput).
  { rewrite slot_of_linked by congruence. rewrite Hs.
    destruct (uploadedFiles s'); [congruence|reflexivity]. }
  destruct (results w) as [[sl o]|] eqn:E.
  - destruct Hres as (-> & _ & Hq & _).
    rewrite (commit_keeps env w s' b Hslot E).
    assert (C : (negb (jsstring_eqb (RR.query o) (query s')) || b)%bool = true).
    { destruct Hch as [->|Hch]; [apply orb_true_r|].
      rewrite jsstring_eqb_neq by congruence. reflexivity. }
    rewrite C, (submit_request env (query s') o Hne).
    unfold network. rewrite E. cbn [past results RR.sent].
    split; [now rewrite app_assoc|]. eexists. split; [reflexivity|].
    repeat split.
  - rewrite (commit_mounts env w s' b Hslot E).
    rewrite (mount_with_files env (query s') Hne).
    unfold network. rewrite E. cbn [past results RR.sent]. rewrite app_nil_r.
    split; [reflexivity|]. eexists. split; [reflexivity|]. repeat split.
Qed.

Lemma slot_of_no_files (s : State) : uploadedFiles s = [] -> slot_of s = None.
Proof.
  intros H. unfold slot_of, shows_results_in_card, shows_results_above_input.
  rewrite H. simpl. now rewrite !andb_false_r.
Qed.

Lemma settle_step_network (w : World) n outcome :
  network (step env w (FetchSettled n outcome)) = network w /\
  app (step env w (FetchSettled n outcome)) = app w.
Proof.
  cbn [step]. destruct (results w) as [[sl o]|] eqn:E; [|split; reflexivity].
  destruct (RR.settle n outcome o) as [o'|] eqn:S; [|split; reflexivity].
  apply settle_hooks in S. destruct S as (_ & _ & _ & Ss & _).
  unfold network. rewrite E. cbn [past results app]. now rewrite Ss.
Qed.

End PageSteps.

(** X17: when files are uploaded and a text that is not blank and differs
    from the query on the page is submitted, exactly one request is added
    to the log; it carries the text as typed, white space at the ends
    included, and all uploaded files in order, and the results component
    shows the spinner. *)
Theorem X17_submission_sends_typed_text (env : option jsstring) (w : App.World)
    (text : jsstring) :
  App.reachable env w ->
  App.uploadedFiles (App.app w) <> [] ->
  Exists (fun c => is_white_space c = false) text ->
  text <> App.query (App.app w) ->
  let w' := App.step env w (App.FormSubmitted text) in
  App.network w'
    = App.network w ++ [App.request_of env text (App.uploadedFiles (App.app w))] /\
  exists o,
    App.results w' = Some (App.AboveInput, o) /\
    RecommendationResults.display o = RecommendationResults.Spinner.
Proof.
  intros Hr Hfs Htext Hneq w'. subst w'. cbn [App.step].
  rewrite (handleSubmit_not_blank Htext).
  destruct (@commit_sends env w (App.handleQuerySubmit text (App.app w)) false
              (reachable_coherent Hr) eq_refl eq_refl Hfs (or_intror Hneq))
    as (Hn & o & Ho & Hd & _).
  split; [exact Hn|]. exists o. split; [exact Ho|exact Hd].
Qed.

Lemma X17_submission_sends_typed_text_witness :
  App.network
    (App.run None [App.FilesSelected (Some [a_txt; b_txt]);
                   App.FormSubmitted (lit "  next?  ")])
  = [App.request_of None (lit "  next?  ") [a_txt; b_txt]].
Proof.
  destruct (@X17_submission_sends_typed_text None
              (App.run None [App.FilesSelected (Some [a_txt; b_txt])])
              (lit "  next?  "))
    as (Hn & _).
  - eexists. reflexivity.
  - discriminate.
  - apply Exists_cons_tl, Exists_cons_tl, Exists_cons_hd. reflexivity.
  - discriminate.
  - exact Hn.
Defined.

(** X18: submitting again the query that is already on the page changes
    nothing at all: no request, no spinner, and whatever was on screen (an
    error included) stays, because the effect depends on [query] and
    [files] only. *)
Theorem X18_same_query_is_ignored (env : option jsstring) (w : App.World) :
  App.reachable env w ->
  App.showResults (App.app w) = true ->
  App.step env w (App.FormSubmitted (App.query (App.app w))) = w.
Proof.
  intros Hr Hs.
  destruct (reachable_coherent Hr) as (Hf & _ & Hq & Hres & _).
  cbn [App.step]. rewrite (handleSubmit_not_blank (Hq Hs)).
  assert (Happ : App.handleQuerySubmit (App.query (App.app w)) (App.app w)
                 = App.app w).
  { unfold App.handleQuerySubmit. rewrite Hs in Hf.
    destruct (App.app w); simpl in *. congruence. }
  rewrite Happ.
  destruct (App.results w) as [[sl o]|] eqn:E.
  - destruct Hres as (-> & Hslot & Hqo & _).
    rewrite (commit_keeps env w (App.app w) false Hslot E).
    rewrite Hqo, jsstring_eqb_refl. simpl.
    destruct w; simpl in *. now rewrite E.
  - rewrite (commit_unmounted env w (App.app w) false Hres).
    unfold App.network. rewrite E, app_nil_r.
    destruct w; simpl in *. now rewrite E.
Qed.

Lemma X18_same_query_is_ignored_witness :
  let w := App.run None [App.FilesSelected (Some [a_txt]);
                         App.FormSubmitted (lit "next?");
                         App.FetchSettled 0
                           (RecommendationResults.Resolved Samples.rate_limited)] in
  App.step None w (App.FormSubmitted (lit "next?")) = w.
Proof.
  intros w.
  apply (@X18_same_query_is_ignored None w).
  - eexists. reflexivity.
  - reflexivity.
Defined.

(** X19: once a query has been submitted, every change of the file list
    that leaves at least one file, an addition (even of no file at all) as
    well as a removal, sends the query again with the new list, without any
    new submission. *)
Theorem X19_file_change_resends (env : option jsstring) (w : App.World) :
  App.reachable env w ->
  App.showResults (App.app w) = true ->
  (forall fs,
      App.uploadedFiles (App.app w) ++ fs <> [] ->
      App.network (App.step env w (App.FilesSelected (Some fs)))
        = App.network w
            ++ [App.request_of env (App.query (App.app w))
                  (App.uploadedFiles (App.app w) ++ fs)]) /\
  (forall index,
      FileUpload.handleRemoveFile (App.uploadedFiles (App.app w)) index <> [] ->
      App.network (App.step env w (App.RemoveClicked index))
        = App.network w
            ++ [App.request_of env (App.query (App.app w))
                  (FileUpload.handleRemoveFile (App.uploadedFiles (App.app w)) index)]).
Proof.
  intros Hr Hs.
  pose proof (reachable_coherent Hr) as Hw.
  pose proof Hw as (Hf & _).
  split.
  - intros fs Hne. cbn [App.step FileUpload.handleFileSelect].
    refine (proj1 (@commit_sends env w (App.setUploadedFiles _ (App.app w)) true
                     Hw _ _ Hne (or_introl eq_refl))); simpl; congruence.
  - intros index Hne. cbn [App.step].
    refine (proj1 (@commit_sends env w (App.setUploadedFiles _ (App.app w)) true
                     Hw _ _ Hne (or_introl eq_refl))); simpl; congruence.
Qed.

Lemma X19_file_change_resends_witness :
  App.network
    (App.run None [App.FilesSelected (Some [a_txt]);
                   App.FormSubmitted (lit "next?");
                   App.FilesSelected (Some [b_txt])])
  = [App.request_of None (lit "next?") [a_txt];
     App.request_of None (lit "next?") [a_txt; b_txt]].
Proof.
  destruct (@X19_file_change_resends None
              (App.run None [App.FilesSelected (Some [a_txt]);
                             App.FormSubmitted (lit "next?")]))
    as (Hadd & _).
  - eexists. reflexivity.
  - reflexivity.
  - exact (Hadd [b_txt] ltac:(discriminate)).
Defined.

(** X20: a removal that empties the file list unmounts the results
    component without sending anything; a response that arrives afterwards
    changes nothing; and when a query had been submitted, adding files
    again mounts a fresh component, whose stored recommendations are
    [null] again. *)
Theorem X20_emptying_the_list_discards_results (env : option jsstring)
    (w : App.World) (index : Z) :
  App.reachable env w ->
  FileUpload.handleRemoveFile (App.uploadedFiles (App.app w)) index = [] ->
  let w1 := App.step env w (App.RemoveClicked index) in
  App.results w1 = None /\
  App.network w1 = App.network w /\
  (forall n outcome, App.step env w1 (App.FetchSettled n outcome) = w1) /\
  (App.showResults (App.app w) = true ->
   forall f fs,
     App.results (App.step env w1 (App.FilesSelected (Some (f :: fs))))
       = Some (App.AboveInput,
               RecommendationResults.mount env (App.query (App.app w)) (f :: fs))).
Proof.
  intros Hr Hempty w1.
  pose proof (reachable_coherent Hr) as (Hf & _).
  assert (E1 : w1 = {| App.app := App.setUploadedFiles [] (App.app w);
                       App.results := None; App.past := App.network w |}).
  { subst w1. cbn [App.step]. rewrite Hempty.
    apply commit_unmounted. now apply slot_of_no_files. }
  rewrite E1. cbn [App.results]. split; [reflexivity|].
  split; [unfold App.network; cbn; apply app_nil_r|].
  split; [reflexivity|].
  intros Hs f fs. cbn [App.step FileUpload.handleFileSelect App.app
                       App.uploadedFiles App.setUploadedFiles app].
  rewrite (@commit_mounts env _ _ true App.AboveInput); [reflexivity| |reflexivity].
  rewrite slot_of_linked by (simpl; exact Hf). simpl. now rewrite Hs.
Qed.

Lemma X20_emptying_the_list_discards_results_witness :
  let w1 := App.run None [App.FilesSelected (Some [a_txt]);
                          App.FormSubmitted (lit "next?");
                          App.RemoveClicked 0] in
  App.results w1 = None /\
  App.step None w1
    (App.FetchSettled 0
       (RecommendationResults.Resolved (Samples.ok_with (lit "late")))) = w1.
Proof.
  intros w1.
  destruct (@X20_emptying_the_list_discards_results None
              (App.run None [App.FilesSelected (Some [a_txt]);
                             App.FormSubmitted (lit "next?")]) 0)
    as (Hnone & _ & Hlate & _).
  - eexists. reflexivity.
  - reflexivity.
  - split; [exact Hnone|apply Hlate].
Defined.

(** X21: every event adds at most one request to the log, and a response
    that arrives adds none and leaves the page state alone: nothing is
    retried, and nothing already sent is taken out of the log. *)
Theorem X21_at_most_one_request_per_event (env : option jsstring) (w : App.World)
    (e : App.Event) :
  App.reachable env w ->
  exists sent_now,
    App.network (App.step env w e) = App.network w ++ sent_now /\
    (length sent_now <= 1)%nat /\
    (forall n outcome,
        e = App.FetchSettled n outcome ->
        sent_now = [] /\ App.app (App.step env w e) = App.app w).
Proof.
  intros Hr. pose proof (reachable_coherent Hr) as Hw.
  pose proof Hw as (Hf & _).
  assert (C : forall s' b,
             App.showResults s' = App.isInteracting s' ->
             exists l, App.network (App.commit env w s' b) = App.network w ++ l /\
                       (length l <= 1)%nat).
  { intros s' b Hs'.
    destruct (commit_network s' b Hw Hs') as [E|(_ & _ & E)]; rewrite E.
    - exists []. split; [now rewrite app_nil_r|simpl; lia].
    - eexists. split; [reflexivity|simpl; lia]. }
  destruct e as [text|target|index|n outcome]; cbn [App.step].
  - destruct (RecommendationInput.handleSubmit text) as [q|].
    + destruct (C (App.handleQuerySubmit q (App.app w)) false eq_refl)
        as (l & E & L).
      exists l. repeat split; auto; discriminate.
    + exists []. rewrite app_nil_r. repeat split; auto; discriminate.
  - destruct target as [fs|]; cbn [FileUpload.handleFileSelect].
    + destruct (C (App.setUploadedFiles (App.uploadedFiles (App.app w) ++ fs)
                     (App.app w)) true Hf) as (l & E & L).
      exists l. repeat split; auto; discriminate.
    + exists []. rewrite app_nil_r. repeat split; auto; discriminate.
  - destruct (C (App.setUploadedFiles
                   (FileUpload.handleRemoveFile (App.uploadedFiles (App.app w)) index)
                   (App.app w)) true Hf) as (l & E & L).
    exists l. repeat split; auto; discriminate.
  - destruct (settle_step_network env w n outcome) as (E1 & E2).
    cbn [App.step] in E1, E2.
    exists []. rewrite app_nil_r. repeat split; auto.
Qed.

Lemma X21_at_most_one_request_per_event_witness :
  exists sent_now,
    App.network
      (App.step None
         (App.run None [App.FilesSelected (Some [a_txt]);
                        App.FormSubmitted (lit "next?")])
         (App.FetchSettled 0 (RecommendationResults.Resolved Samples.bad_gateway)))
    = [App.request_of None (lit "next?") [a_txt]] ++ sent_now /\
    sent_now = [].
Proof.
  destruct (@X21_at_most_one_request_per_event None
              (App.run None [App.FilesSelected (Some [a_txt]);
                             App.FormSubmitted (lit "next?")])
              (App.FetchSettled 0
                 (RecommendationResults.Resolved Samples.bad_gateway)))
    as (l & E & _ & Hs).
  - eexists. reflexivity.
  - exists l. split; [exact E|]. exact (proj1 (Hs _ _ eq_refl)).
Defined.

(** X22: whatever the state, at most one of the three result blocks of the
    page is rendered (results in the card, the upload prompt, results
    above the input), and the hero is never rendered together with the
    results above the input. *)
Theorem X22_blocks_exclude_each_other (s : App.State) :
  (App.shows_results_in_card s && App.shows_upload_prompt s = false)%bool /\
  (App.shows_results_in_card s && App.shows_results_above_input s = false)%bool /\
  (App.shows_upload_prompt s && App.shows_results_above_input s = false)%bool /\
  (App.shows_hero s && App.shows_results_above_input s = false)%bool.
Proof.
  unfold App.shows_results_in_card, App.shows_upload_prompt,
    App.shows_results_above_input, App.shows_hero.
  destruct (App.showResults s), (App.isInteracting s),
    (App.uploadedFiles s) as [|f fs]; simpl; repeat split.
Qed.

(** * Submissions at the page *)

Section PageSubmissions.

Import App.

Variable env : option jsstring.

(** The instance a commit leaves behind when it runs the effect. *)
Lemma commit_sends_pending (w : World) s' b :
  coherent env w ->
  showResults s' = true -> isInteracting s' = true ->
  uploadedFiles s' <> [] ->
  (b = true \/ query s' <> query (app w)) ->
  exists o h,
    results (commit env w s' b) = Some (AboveInput, o) /\
    RR.hooks o = RR.pending h /\
    RR.files o = uploadedFiles s'.
Proof.
  intros (_ & _ & _ & Hres & _) Hs Hi Hne Hch.
  assert (Hslot : slot_of s' = Some AboveInput).
  { rewrite slot_of_linked by congruence. rewrite Hs.
    destruct (uploadedFiles s'); [congruence|reflexivity]. }
  destruct (results w) as [[sl o]|] eqn:E.
  - destruct Hres as (-> & _ & Hq & _).
    rewrite (commit_keeps env w s' b Hslot E).
    assert (C : (negb (jsstring_eqb (RR.query o) (query s')) || b)%bool = true).
    { destruct Hch as [->|Hch]; [apply orb_true_r|].
      rewrite jsstring_eqb_neq by congruence. reflexivity. }
    rewrite C, (submit_request env (query s') o Hne).
    eexists _, _. repeat split.
  - rewrite (commit_mounts env w s' b Hslot E).
    rewrite (mount_with_files env (query s') Hne).
    eexists _, _. repeat split.
Qed.

(** With a query on the page, the form submitted with that same text
    leaves the page as it is. *)
Lemma resubmission_is_identity (w : World) :
  coherent env w ->
  showResults (app w) = true ->
  step env w (FormSubmitted (query (app w))) = w.
Proof.
  intros (Hf & _ & Hq & Hres & _) Hs.
  cbn [step]. rewrite (handleSubmit_not_blank (Hq Hs)).
  assert (Happ : handleQuerySubmit (query (app w)) (app w) = app w).
  { unfold handleQuerySubmit. rewrite Hs in Hf.
    destruct (app w); simpl in *. congruence. }
  rewrite Happ.
  destruct (results w) as [[sl o]|] eqn:E.
  - destruct Hres as (-> & Hslot & Hqo & _).
    rewrite (commit_keeps env w (app w) false Hslot E).
    rewrite Hqo, jsstring_eqb_refl. simpl.
    destruct w; simpl in *. now rewrite E.
  - rewrite (commit_unmounted env w (app w) false Hres).
    unfold network. rewrite E, app_nil_r.
    destruct w; simpl in *. now rewrite E.
Qed.

(** A text that is not blank and equals the page's query was submitted
    before. *)
Lemma query_on_page (w : World) text :
  coherent env w ->
  Exists (fun c => is_white_space c = false) text ->
  text = query (app w) ->
  showResults (app w) = true.
Proof.
  intros (_ & Hempty & _) Ht E.
  destruct (showResults (app w)) eqn:S; [reflexivity|].
  destruct (Hempty eq_refl) as (Hq & _). rewrite Hq in E. subst text.
  inversion Ht.
Qed.

End PageSubmissions.

(** C7, as the code has it: with at least one file uploaded, submitting the
    form with a text that is not blank and is not the query already on the
    page (the first submission included) adds exactly one request to the
    log, a POST to the configured base followed by [/api/recommendations]
    whose form holds [query] with the text as submitted and then one [files]
    part per uploaded file in order; submitting the text that is already
    the page's query adds no request and changes nothing.  Each run of the
    effect with files, on mount or on a later render, makes exactly one
    such request. *)
Theorem C7_one_post_per_submission (env : option jsstring) (w : App.World)
    (text : jsstring) :
  App.reachable env w ->
  App.uploadedFiles (App.app w) <> [] ->
  Exists (fun c => is_white_space c = false) text ->
  let w' := App.step env w (App.FormSubmitted text) in
  (text <> App.query (App.app w) ->
   exists req,
     App.network w' = App.network w ++ [req] /\
     RecommendationResults.url req
       = match env with Some base => base | None => [] end
           ++ lit "/api/recommendations" /\
     RecommendationResults.method req = lit "POST" /\
     RecommendationResults.body req
       = (lit "query", RecommendationResults.Text text)
           :: map (fun f => (lit "files", RecommendationResults.Blob f))
                  (App.uploadedFiles (App.app w))) /\
  (text = App.query (App.app w) ->
   w' = w /\ App.network w' = App.network w) /\
  (forall q fs (o : RecommendationResults.Instance),
      fs <> [] ->
      exists req,
        RecommendationResults.sent (RecommendationResults.submit env q fs o)
          = RecommendationResults.sent o ++ [req] /\
        RecommendationResults.inflight (RecommendationResults.submit env q fs o)
          = RecommendationResults.inflight o ++ [req] /\
        RecommendationResults.sent (RecommendationResults.mount env q fs) = [req] /\
        RecommendationResults.url req
          = match env with Some base => base | None => [] end
              ++ lit "/api/recommendations" /\
        RecommendationResults.method req = lit "POST" /\
        RecommendationResults.body req
          = (lit "query", RecommendationResults.Text q)
              :: map (fun f => (lit "files", RecommendationResults.Blob f)) fs).
Proof.
  intros Hr Hfs Htext w'.
  pose proof (reachable_coherent Hr) as Hw.
  split; [|split].
  - intros Hneq. subst w'. cbn [App.step].
    rewrite (handleSubmit_not_blank Htext).
    destruct (@commit_sends env w (App.handleQuerySubmit text (App.app w)) false
                Hw eq_refl eq_refl Hfs (or_intror Hneq)) as (Hn & _).
    eexists. split; [exact Hn|].
    split; [apply endpoint_base|]. split; reflexivity.
  - intros E. subst w'.
    pose proof (query_on_page Hw Htext E) as Hs. subst text.
    rewrite (resubmission_is_identity Hw Hs). split; reflexivity.
  - intros q fs o H. now apply effect_run_posts_once.
Qed.

Lemma C7_one_post_per_submission_witness :
  exists req,
    App.network
      (App.run (Some (lit "http://localhost:8000"))
         [App.FilesSelected (Some [a_txt; b_txt]);
          App.FormSubmitted (lit "What should we build next?")]) = [req] /\
    RecommendationResults.url req
      = lit "http://localhost:8000/api/recommendations" /\
    RecommendationResults.body req
      = [(lit "query", RecommendationResults.Text (lit "What should we build next?"));
         (lit "files", RecommendationResults.Blob a_txt);
         (lit "files", RecommendationResults.Blob b_txt)].
Proof.
  destruct (@C7_one_post_per_submission (Some (lit "http://localhost:8000"))
              (App.run (Some (lit "http://localhost:8000"))
                 [App.FilesSelected (Some [a_txt; b_txt])])
              (lit "What should we build next?"))
    as (Hnew & _).
  - eexists. reflexivity.
  - discriminate.
  - apply Exists_cons_hd. reflexivity.
  - destruct (Hnew ltac:(discriminate)) as (req & Hn & Hu & _ & Hb).
    exists req. split; [exact Hn|]. split; [exact Hu|exact Hb].
Defined.

(** C7 as the spec words it does not hold: with a file uploaded, the form
    submitted a second time with the same text sends nothing. *)
Lemma C7_counterexample_same_query :
  ~ (forall env (w : App.World) (text : jsstring),
        App.reachable env w ->
        App.uploadedFiles (App.app w) <> [] ->
        Exists (fun c => is_white_space c = false) text ->
        exists req,
          App.network (App.step env w (App.FormSubmitted text))
            = App.network w ++ [req]).
Proof.
  intros H.
  destruct (H None
              (App.run None [App.FilesSelected (Some [a_txt]);
                             App.FormSubmitted (lit "next?")])
              (lit "next?")) as (req & E).
  - eexists. reflexivity.
  - discriminate.
  - apply Exists_cons_hd. reflexivity.
  - vm_compute in E. discriminate E.
Qed.

(** C5, as the code has it: in every reachable instance the component
    shows exactly one of four things, the spinner, the error box, the
    markdown, or nothing at all, each fixed by the three cells as stated,
    and no error is stored while the spinner is up.  A run of the effect
    with at least one file puts the spinner up and clears the stored
    error, the stored recommendations staying in their cell; at the page,
    with files uploaded, the form submitted with a text that is not blank
    and is not the query already on the page runs it, so the spinner is up
    and no error is stored afterwards, while the form submitted with the
    text that is already the page's query runs nothing and leaves the page,
    an error box included, as it was. *)
Theorem C5_display_states (env : option jsstring)
    (o : RecommendationResults.Instance) :
  RecommendationResults.reachable env o ->
  (RecommendationResults.loading (RecommendationResults.hooks o) = true ->
   RecommendationResults.error (RecommendationResults.hooks o) = None) /\
  match RecommendationResults.display o with
  | RecommendationResults.Spinner =>
      RecommendationResults.loading (RecommendationResults.hooks o) = true
  | RecommendationResults.ErrorBox m =>
      RecommendationResults.loading (RecommendationResults.hooks o) = false /\
      RecommendationResults.error (RecommendationResults.hooks o) = Some m /\ m <> []
  | RecommendationResults.Markdown v n =>
      RecommendationResults.loading (RecommendationResults.hooks o) = false /\
      (RecommendationResults.error (RecommendationResults.hooks o) = None \/
       RecommendationResults.error (RecommendationResults.hooks o) = Some []) /\
      RecommendationResults.recommendations (RecommendationResults.hooks o) = v /\
      truthy v = true /\ n = length (RecommendationResults.files o)
  | RecommendationResults.Nothing =>
      RecommendationResults.loading (RecommendationResults.hooks o) = false /\
      (RecommendationResults.error (RecommendationResults.hooks o) = None \/
       RecommendationResults.error (RecommendationResults.hooks o) = Some []) /\
      truthy (RecommendationResults.recommendations (RecommendationResults.hooks o)) = false
  end /\
  (forall q fs,
      fs <> [] ->
      let o' := RecommendationResults.submit env q fs o in
      RecommendationResults.display o' = RecommendationResults.Spinner /\
      RecommendationResults.error (RecommendationResults.hooks o') = None /\
      RecommendationResults.recommendations (RecommendationResults.hooks o')
        = RecommendationResults.recommendations (RecommendationResults.hooks o)) /\
  (forall (w : App.World) (text : jsstring),
      App.reachable env w ->
      App.uploadedFiles (App.app w) <> [] ->
      Exists (fun c => is_white_space c = false) text ->
      let w' := App.step env w (App.FormSubmitted text) in
      (text <> App.query (App.app w) ->
       exists o',
         App.results w' = Some (App.AboveInput, o') /\
         RecommendationResults.display o' = RecommendationResults.Spinner /\
         RecommendationResults.error (RecommendationResults.hooks o') = None) /\
      (text = App.query (App.app w) -> w' = w)).
Proof.
  intros Hr.
  destruct (instance_display_states Hr) as (H1 & H2 & H3).
  split; [exact H1|]. split; [exact H2|]. split; [exact H3|].
  intros w text Hrw Hfs Htext w'.
  pose proof (reachable_coherent Hrw) as Hw.
  split.
  - intros Hneq. subst w'. cbn [App.step].
    rewrite (handleSubmit_not_blank Htext).
    destruct (@commit_sends_pending env w
                (App.handleQuerySubmit text (App.app w)) false
                Hw eq_refl eq_refl Hfs (or_intror Hneq))
      as (o' & h & Ho & Hh & _).
    exists o'. split; [exact Ho|].
    unfold RecommendationResults.display. rewrite Hh. split; reflexivity.
  - intros E. subst w'.
    pose proof (query_on_page Hw Htext E) as Hs. subst text.
    apply (resubmission_is_identity Hw Hs).
Qed.

Lemma C5_display_states_witness :
  RecommendationResults.display
    (RecommendationResults.submit None (lit "And after that?") [a_txt; b_txt]
       (RecommendationResults.mount None (lit "What should we build next?") [a_txt]))
  = RecommendationResults.Spinner /\
  (let w := App.run None
              [App.FilesSelected (Some [a_txt]);
               App.FormSubmitted (lit "next?");
               App.FetchSettled 0
                 (RecommendationResults.Resolved Samples.rate_limited)] in
   App.step None w (App.FormSubmitted (lit "next?")) = w /\
   exists o',
     App.results (App.step None w (App.FormSubmitted (lit "again?")))
       = Some (App.AboveInput, o') /\
     RecommendationResults.display o' = RecommendationResults.Spinner).
Proof.
  assert (Hr : RecommendationResults.reachable None
                 (RecommendationResults.mount None (lit "What should we build next?")
                    [a_txt])).
  { exists (lit "What should we build next?"), [a_txt], []. reflexivity. }
  destruct (C5_display_states Hr) as (_ & _ & Hs & Hpage).
  split; [apply (Hs (lit "And after that?") [a_txt; b_txt]); discriminate|].
  intros w.
  assert (Hw : App.reachable None w) by (eexists; reflexivity).
  split.
  - apply (Hpage w (lit "next?") Hw ltac:(discriminate)
             ltac:(apply Exists_cons_hd; reflexivity)).
    reflexivity.
  - destruct (proj1 (Hpage w (lit "again?") Hw ltac:(discriminate)
                       ltac:(apply Exists_cons_hd; reflexivity))
                ltac:(discriminate)) as (o' & Ho & Hd & _).
    exists o'. split; [exact Ho|exact Hd].
Defined.
